(** * Arc AI Chat front end: the conversation controller of [src/App.jsx]

    The component [App] keeps a message log, a busy flag, a status and a
    single slot for the abort handle of the request in flight.  This file
    embeds its two pieces of logic, the start-up probe and [sendMessage],
    together with the part of the JavaScript run time they rely on
    (strings as UTF-16 code units, parsed JSON values, optional chaining,
    truthiness, [String.prototype.trim], [JSON.stringify] and the string
    conversion of template literals), and proves properties of them. *)

From Stdlib Require Import Ascii String.
From Stdlib Require Import NArith List Bool Lia.
From stdpp Require Import base numbers option list.
Import ListNotations.

Local Open Scope N_scope.
Local Open Scope list_scope.

(** ** The JavaScript values the component handles *)

Module JS.

(** A JavaScript string is a sequence of UTF-16 code units; [length] and
    [slice] count code units. *)
Definition code_unit := N.
Definition jsstring := list code_unit.

(** An ASCII literal of the source, as code units. *)
Definition lit (s : string) : jsstring :=
  map N_of_ascii (list_ascii_of_string s).

#[local] Set Warnings "-register-all".

(** The result of [JSON.parse].  A number is kept as the text that
    [String(n)] gives for it (so both zeros are ["0"]): the component
    only tests numbers for truthiness and prints them.  The properties
    of an object are kept in enumeration order, with distinct keys. *)
Inductive json :=
| JNull
| JBool (b : bool)
| JNum (repr : jsstring)
| JStr (s : jsstring)
| JArr (items : list json)
| JObj (props : list (jsstring * json)).

(** A value read from a parsed body: [None] is [undefined]. *)
Definition value := option json.

(** ToBoolean. *)
Definition truthy (v : value) : bool :=
  match v with
  | None => false
  | Some JNull => false
  | Some (JBool b) => b
  | Some (JNum r) => negb (bool_decide (r = lit "0") || bool_decide (r = lit "NaN"))
  | Some (JStr s) => negb (bool_decide (s = []))
  | Some (JArr _) => true
  | Some (JObj _) => true
  end.

Definition nullish (v : value) : bool :=
  match v with
  | None | Some JNull => true
  | _ => false
  end.

Fixpoint own_property (k : jsstring) (props : list (jsstring * json)) : value :=
  match props with
  | [] => None
  | (k', v) :: rest => if bool_decide (k' = k) then Some v else own_property k rest
  end.

(** [v.k] for a value [v] that is neither [null] nor [undefined] and a
    name [k] that no prototype defines (such are [output],
    [generated_text], [text] and [error]): only an object can have it. *)
Definition member (k : jsstring) (v : json) : value :=
  match v with
  | JObj props => own_property k props
  | _ => None
  end.

(** [v[0]]: the first element of an array, the first code unit of a
    string (as a string of length one), the property ["0"] of an
    object. *)
Definition index0 (v : json) : value :=
  match v with
  | JArr items => head items
  | JStr (c :: _) => Some (JStr [c])
  | JObj props => own_property (lit "0") props
  | _ => None
  end.

(** Optional chaining: [v?.k] and [v?.[0]]. *)
Definition opt_member (k : jsstring) (v : value) : value :=
  match v with
  | None | Some JNull => None
  | Some x => member k x
  end.

Definition opt_index0 (v : value) : value :=
  match v with
  | None | Some JNull => None
  | Some x => index0 x
  end.

(** [a || b]. *)
Definition or_else (a b : value) : value := if truthy a then a else b.

(** [typeof v === "string"]. *)
Definition is_string (v : json) : bool :=
  match v with JStr _ => true | _ => false end.

(** [s.slice(0, n)]. *)
Definition slice0 (n : nat) (s : jsstring) : jsstring := take n s.

(** *** [String.prototype.trim] *)

(** WhiteSpace and LineTerminator code points of ECMAScript (all of them
    are in the basic plane). *)
Definition is_white_space (c : code_unit) : bool :=
  (c =? 0x09) || (c =? 0x0A) || (c =? 0x0B) || (c =? 0x0C) || (c =? 0x0D)
  || (c =? 0x20) || (c =? 0xA0) || (c =? 0x1680)
  || ((0x2000 <=? c) && (c <=? 0x200A))
  || (c =? 0x2028) || (c =? 0x2029) || (c =? 0x202F) || (c =? 0x205F)
  || (c =? 0x3000) || (c =? 0xFEFF).

Fixpoint trimStart (s : jsstring) : jsstring :=
  match s with
  | [] => []
  | c :: rest => if is_white_space c then trimStart rest else s
  end.

Definition trimEnd (s : jsstring) : jsstring := rev (trimStart (rev s)).

Definition trim (s : jsstring) : jsstring := trimEnd (trimStart s).

(** *** [JSON.stringify] *)

Definition hex_digit (n : N) : code_unit :=
  if n <? 10 then 48 + n else 87 + n.

(** The escape [\uXXXX], in lower-case hexadecimal digits. *)
Definition unicode_escape (c : code_unit) : jsstring :=
  lit "\u" ++ [hex_digit (c / 4096 mod 16); hex_digit (c / 256 mod 16);
               hex_digit (c / 16 mod 16); hex_digit (c mod 16)].

Definition is_lead_surrogate (c : code_unit) : bool := (0xD800 <=? c) && (c <=? 0xDBFF).
Definition is_trail_surrogate (c : code_unit) : bool := (0xDC00 <=? c) && (c <=? 0xDFFF).

(** One code unit that is not half of a surrogate pair. *)
Definition quote_unit (c : code_unit) : jsstring :=
  if c =? 0x08 then lit "\b"
  else if c =? 0x09 then lit "\t"
  else if c =? 0x0A then lit "\n"
  else if c =? 0x0C then lit "\f"
  else if c =? 0x0D then lit "\r"
  else if c =? 0x22 then [0x5C; 0x22]
  else if c =? 0x5C then [0x5C; 0x5C]
  else if (c <? 0x20) || is_lead_surrogate c || is_trail_surrogate c
       then unicode_escape c
  else [c].

(** The characters of a quoted string: a surrogate pair is copied, a
    lone surrogate is escaped. *)
Fixpoint quote_units (s : jsstring) : jsstring :=
  match s with
  | [] => []
  | c :: rest =>
      match rest with
      | d :: rest' =>
          if is_lead_surrogate c && is_trail_surrogate d
          then c :: d :: quote_units rest'
          else quote_unit c ++ quote_units rest
      | [] => quote_unit c
      end
  end.

Definition QuoteJSONString (s : jsstring) : jsstring :=
  [0x22] ++ quote_units s ++ [0x22].

Definition finite_number (repr : jsstring) : bool :=
  negb (bool_decide (repr = lit "Infinity") || bool_decide (repr = lit "-Infinity")
        || bool_decide (repr = lit "NaN")).

Fixpoint join (sep : jsstring) (parts : list jsstring) : jsstring :=
  match parts with
  | [] => []
  | [p] => p
  | p :: rest => p ++ sep ++ join sep rest
  end.

(** [JSON.stringify(v)] without replacer and indentation, for a parsed
    value (which holds no function, no [undefined] and no cycle, so
    that the call always returns a string). *)
Fixpoint stringify (v : json) : jsstring :=
  match v with
  | JNull => lit "null"
  | JBool true => lit "true"
  | JBool false => lit "false"
  | JNum r => if finite_number r then r else lit "null"
  | JStr s => QuoteJSONString s
  | JArr items =>
      lit "[" ++ join (lit ",") (map stringify items) ++ lit "]"
  | JObj props =>
      lit "{" ++
      join (lit ",")
           (map (fun kv => QuoteJSONString (fst kv) ++ lit ":" ++ stringify (snd kv)) props)
      ++ lit "}"
  end.

(** *** ToString, as a template literal applies it *)

(** [None] stands for the TypeError of an object that cannot be
    converted: a parsed object converts through [Object.prototype.toString]
    unless a property of its own called [toString] hides that method. *)
Fixpoint ToString (v : json) : option jsstring :=
  match v with
  | JNull => Some (lit "null")
  | JBool true => Some (lit "true")
  | JBool false => Some (lit "false")
  | JNum r => Some r
  | JStr s => Some s
  | JArr items =>
      (* Array.prototype.join: null elements print as the empty string *)
      join (lit ",") <$>
        mapM (fun x => match x with JNull => Some [] | _ => ToString x end) items
  | JObj props =>
      match own_property (lit "toString") props with
      | Some _ => None
      | None => Some (lit "[object Object]")
      end
  end.

End JS.

Import JS.

(** ** Effects: state, exceptions and the calls made to the platform *)

(** How an evaluation completes: normally, or by throwing.  A thrown
    error is kept as its [name], the only thing the handlers look at.
    A settled promise is the same thing: fulfilled or rejected. *)
Inductive completion (A : Type) :=
| Normal (a : A)
| Throw (name : jsstring).
Arguments Normal {A} a.
Arguments Throw {A} name.

Definition settled := completion.

Inductive Role := user | assistant.

Inductive Status := idle | warming | ready.

(** [{role, text}]; [text] is whatever value the code stores there. *)
Record Message := { role : Role; text : value }.

(** The second argument of [fetch]. *)
Record RequestInit := {
  method : jsstring;
  headers : list (jsstring * jsstring);
  body : jsstring;
  signal : nat
}.

(** Calls that leave the component, in the order they are made. *)
Inductive Call :=
| Call_abort (controller : nat)
| Call_fetch (url : jsstring) (init : option RequestInit).

(** What [fetch] hands back: [res.status], [res.statusText] and what
    [res.json()] settles to. *)
Record Response := {
  http_status : N;
  statusText : jsstring;
  json_body : settled json
}.

(** [res.ok]. *)
Definition ok (res : Response) : bool :=
  (200 <=? http_status res) && (http_status res <=? 299).

(** What the promise of [fetch] settles to. *)
Definition exchange := settled Response.

(** The hooks of [App] (lines 9 to 13), the [AbortController] objects
    created so far (a controller is its index here, the entry is
    [signal.aborted]) and the calls made so far. *)
Record state := {
  input : jsstring;
  messages : list Message;
  loading : bool;
  status : Status;
  abortControllerRef : option nat;
  controllers : list bool;
  calls : list Call
}.

Definition M (A : Type) := state -> completion A * state.

Definition ret {A} (a : A) : M A := fun s => (Normal a, s).

Definition bind {A B} (m : M A) (k : A -> M B) : M B :=
  fun s => match m s with
           | (Normal a, s') => k a s'
           | (Throw e, s') => (Throw e, s')
           end.

Definition throw {A} (name : jsstring) : M A := fun s => (Throw name, s).

Declare Scope js_scope.
Delimit Scope js_scope with js.
Notation "'let!' x ':=' m 'in' k" := (bind m (fun x => k))
  (at level 10, x name, m at level 100, k at level 200) : js_scope.
Notation "m ;; k" := (bind m (fun _ => k))
  (at level 100, k at level 200, right associativity) : js_scope.
Local Open Scope js_scope.

(** [try { m } catch (err) { handler err }] *)
Definition try_catch {A} (m : M A) (handler : jsstring -> M A) : M A :=
  fun s => match m s with
           | (Normal a, s') => (Normal a, s')
           | (Throw e, s') => handler e s'
           end.

(** [try { m } finally { fin }] *)
Definition try_finally {A} (m : M A) (fin : M unit) : M A :=
  fun s => match m s with
           | (r, s') => match fin s' with
                        | (Normal _, s'') => (r, s'')
                        | (Throw e, s'') => (Throw e, s'')
                        end
           end.

(** [await p] on a settled promise. *)
Definition await {A} (p : settled A) : M A :=
  match p with
  | Normal a => ret a
  | Throw e => throw e
  end.

(** [p.catch(() => v)] *)
Definition promise_catch {A} (p : settled A) (v : A) : settled A :=
  match p with
  | Normal a => Normal a
  | Throw _ => Normal v
  end.

Definition get {A} (f : state -> A) : M A := fun s => (Normal (f s), s).

Definition modify (f : state -> state) : M unit := fun s => (Normal tt, f s).

(** The setters of [useState]; an updater function is applied to the
    current value at the call. *)
Definition setInput (v : jsstring) : M unit :=
  modify (fun s => {| input := v; messages := messages s; loading := loading s;
                      status := status s; abortControllerRef := abortControllerRef s;
                      controllers := controllers s; calls := calls s |}).

Definition setMessages (updater : list Message -> list Message) : M unit :=
  modify (fun s => {| input := input s; messages := updater (messages s);
                      loading := loading s; status := status s;
                      abortControllerRef := abortControllerRef s;
                      controllers := controllers s; calls := calls s |}).

Definition setLoading (v : bool) : M unit :=
  modify (fun s => {| input := input s; messages := messages s; loading := v;
                      status := status s; abortControllerRef := abortControllerRef s;
                      controllers := controllers s; calls := calls s |}).

Definition setStatus (v : Status) : M unit :=
  modify (fun s => {| input := input s; messages := messages s; loading := loading s;
                      status := v; abortControllerRef := abortControllerRef s;
                      controllers := controllers s; calls := calls s |}).

(** [abortControllerRef.current = v] *)
Definition set_current (v : option nat) : M unit :=
  modify (fun s => {| input := input s; messages := messages s; loading := loading s;
                      status := status s; abortControllerRef := v;
                      controllers := controllers s; calls := calls s |}).

Definition record_call (c : Call) : M unit :=
  modify (fun s => {| input := input s; messages := messages s; loading := loading s;
                      status := status s; abortControllerRef := abortControllerRef s;
                      controllers := controllers s; calls := calls s ++ [c] |}).

(** [new AbortController()]: a fresh object whose signal is not aborted. *)
Definition new_AbortController : M nat :=
  fun s => (Normal (length (controllers s)),
            {| input := input s; messages := messages s; loading := loading s;
               status := status s; abortControllerRef := abortControllerRef s;
               controllers := controllers s ++ [false]; calls := calls s |}).

(** [c.abort()].  The source guards the call with an empty [catch]; so
    that the guard means something the call may fail: with [fault = Some e]
    it throws [e] and leaves the signal as it was. *)
Definition abort (fault : option jsstring) (c : nat) : M unit :=
  record_call (Call_abort c) ;;
  match fault with
  | Some e => throw e
  | None =>
      modify (fun s => {| input := input s; messages := messages s; loading := loading s;
                          status := status s; abortControllerRef := abortControllerRef s;
                          controllers := <[c := true]> (controllers s); calls := calls s |})
  end.

(** [fetch(url, init)]: the call is made; its promise settles later. *)
Definition fetch (url : jsstring) (init : option RequestInit) : M unit :=
  record_call (Call_fetch url init).

(** ** The component *)

Definition warning_sign : jsstring := [0x26A0; 0xFE0F].

Definition AbortError : jsstring := lit "AbortError".
Definition TypeError : jsstring := lit "TypeError".

(** [v.k] and [v[0]] without the question mark: they throw on [null]
    and [undefined]. *)
Definition get_member (k : jsstring) (v : value) : M value :=
  match v with
  | None | Some JNull => throw TypeError
  | Some x => ret (member k x)
  end.

Definition get_index0 (v : value) : M value :=
  match v with
  | None | Some JNull => throw TypeError
  | Some x => ret (index0 x)
  end.

(** The substitution [${v}] of a template literal. *)
Definition substitution (v : value) : M jsstring :=
  match v with
  | None => ret (lit "undefined")
  | Some x => match ToString x with
              | Some s => ret s
              | None => throw TypeError
              end
  end.

(** Lines 56 to 65: the reply taken out of the parsed body. *)
Definition extract_reply (data : json) : M value :=
  try_catch
    (if truthy (opt_member (lit "generated_text")
                  (opt_index0 (opt_member (lit "output") (Some data))))
     then (let! o := get_member (lit "output") (Some data) in
           let! first := get_index0 o in
           get_member (lit "generated_text") first)
     else if truthy (opt_member (lit "text")
                       (opt_index0 (opt_member (lit "output") (Some data))))
     then (let! o := get_member (lit "output") (Some data) in
           let! first := get_index0 o in
           get_member (lit "text") first)
     else if is_string data then ret (Some data)
     else ret (Some (JStr (slice0 2000 (stringify data)))))
    (fun e => ret (Some (JStr (slice0 2000 (stringify data))))).

Definition append (m : Message) : list Message -> list Message :=
  fun log => log ++ [m].

Section App.

(** [import.meta.env.VITE_BACKEND_URL], a string when it is set. *)
Variable VITE_BACKEND_URL : option jsstring.

(** Line 7. *)
Definition BACKEND : jsstring :=
  match VITE_BACKEND_URL with
  | Some (c :: u) => c :: u
  | _ => lit "https://arc-ai.onrender.com"
  end.

(** The [useState] and [useRef] calls of lines 9 to 13, before anything
    has run. *)
Definition initial : state :=
  {| input := []; messages := []; loading := false; status := idle;
     abortControllerRef := None; controllers := []; calls := [] |}.

(** Lines 15 to 26, the effect that runs once after the first render,
    up to its [await]. *)
Definition probe : M unit :=
  setStatus warming ;;
  fetch (BACKEND ++ lit "/ping") None.

(** The rest of the effect, once the promise of [fetch] has settled. *)
Definition probe_resumed (x : exchange) : M unit :=
  try_catch
    (let! res := await x in
     setStatus ready)
    (fun _ => setStatus idle).

(** Lines 28 to 48: [sendMessage] up to its first [await].  The result
    is the controller [ac] of the request it now waits for, or [None]
    when it returned at line 29. *)
Definition sendMessage (abort_fault : option jsstring) : M (option nat) :=
  let! inp := get input in
  if bool_decide (trim inp = []) then ret None
  else
    let prompt := trim inp in
    setMessages (append {| role := user; text := Some (JStr prompt) |}) ;;
    setInput [] ;;
    setLoading true ;;
    let! current := get abortControllerRef in
    match current with
    | Some c => try_catch (abort abort_fault c) (fun _ => ret tt)
    | None => ret tt
    end ;;
    let! ac := new_AbortController in
    set_current (Some ac) ;;
    fetch (BACKEND ++ lit "/chat")
          (Some {| method := lit "POST";
                   headers := [(lit "Content-Type", lit "application/json")];
                   body := stringify (JObj [(lit "prompt", JStr prompt)]);
                   signal := ac |}) ;;
    ret (Some ac).

(** Lines 42 to 77 from the [await] of line 43 on: what [sendMessage]
    does once the promise of [fetch] has settled to [x].  Nothing of the
    component is read or written between that [await] and the one on
    [res.json()], so both are taken in one step. *)
Definition sendMessage_resumed (x : exchange) : M unit :=
  try_finally
    (try_catch
       (let! res := await x in
        if negb (ok res) then
          let! err := await (promise_catch (json_body res) JNull) in
          let! s := substitution (or_else (opt_member (lit "error") (Some err))
                                          (Some (JStr (statusText res)))) in
          setMessages (append {| role := assistant;
                                 text := Some (JStr (warning_sign ++ lit " Error: " ++ s)) |})
        else
          let! data := await (json_body res) in
          let! reply := extract_reply data in
          setMessages (append {| role := assistant; text := reply |}))
       (fun err =>
          if bool_decide (err = AbortError) then
            setMessages (append {| role := assistant;
              text := Some (JStr (warning_sign ++ lit " Request cancelled (newer request arrived).")) |})
          else
            setMessages (append {| role := assistant;
              text := Some (JStr (warning_sign ++ lit " Network error or server error")) |})))
    (setLoading false ;;
     set_current None).

End App.

(** ** The component in its event loop *)

(** Besides the component's own state, the activations of
    [sendMessage] that are suspended at their [await] (each known by the
    controller it created) and whether the start-up effect is still
    suspended at its own. *)
Record system := {
  component : state;
  in_flight : list nat;
  probe_pending : bool
}.

(** What can happen next: the user edits the field (line 114), the user
    presses Enter or clicks Send (lines 115 and 119; Enter is not held
    back by [loading]), the request of a suspended activation settles,
    the request of the probe settles. *)
Inductive event :=
| Typed (v : jsstring)
| Submitted (abort_fault : option jsstring)
| Settled (ac : nat) (x : exchange)
| ProbeSettled (x : exchange).

Section Loop.

Variable VITE_BACKEND_URL : option jsstring.

(** After the first render and its effect. *)
Definition mounted : system :=
  {| component := snd (probe VITE_BACKEND_URL initial); in_flight := []; probe_pending := true |}.

Definition react (sys : system) (ev : event) : system :=
  match ev with
  | Typed v =>
      {| component := snd (setInput v (component sys));
         in_flight := in_flight sys; probe_pending := probe_pending sys |}
  | Submitted abort_fault =>
      match sendMessage VITE_BACKEND_URL abort_fault (component sys) with
      | (Normal (Some ac), s) =>
          {| component := s; in_flight := in_flight sys ++ [ac];
             probe_pending := probe_pending sys |}
      | (_, s) =>
          {| component := s; in_flight := in_flight sys; probe_pending := probe_pending sys |}
      end
  | Settled ac x =>
      if bool_decide (ac ∈ in_flight sys) then
        {| component := snd (sendMessage_resumed x (component sys));
           in_flight := filter (fun c => c ≠ ac) (in_flight sys);
           probe_pending := probe_pending sys |}
      else sys
  | ProbeSettled x =>
      if probe_pending sys then
        {| component := snd (probe_resumed x (component sys));
           in_flight := in_flight sys; probe_pending := false |}
      else sys
  end.

Definition run (sys : system) (evs : list event) : system :=
  fold_left react evs sys.

End Loop.

(** ** The specification's wording, for comparison *)

(** Section 4.1, response reconciliation, rule 2: the four-branch
    precedence. *)
Definition precedence_reply (body : json) : value :=
  let first := opt_index0 (opt_member (lit "output") (Some body)) in
  if truthy (opt_member (lit "generated_text") first)
  then opt_member (lit "generated_text") first
  else if truthy (opt_member (lit "text") first)
  then opt_member (lit "text") first
  else match body with
       | JStr s => Some (JStr s)
       | _ => Some (JStr (take 2000 (stringify body)))
       end.


(** ** Counting *)

Definition is_user (m : Message) : bool :=
  match role m with user => true | assistant => false end.

Definition is_assistant (m : Message) : bool :=
  match role m with user => false | assistant => true end.

Definition count {A} (p : A -> bool) (l : list A) : nat := length (List.filter p l).


(** What reaches the [catch] of line 68: the error the promise of
    [fetch] rejects with, or the one [res.json()] rejects with on the
    branch of line 54.  (On the branch of line 51 a rejection of
    [res.json()] is swallowed by [.catch(()=>null)].) *)
Definition rejection (x : exchange) : option jsstring :=
  match x with
  | Throw e => Some e
  | Normal res =>
      if ok res then
        match json_body res with
        | Throw e => Some e
        | Normal _ => None
        end
      else None
  end.

(** The parsed error body of line 51. *)
Definition error_body (res : Response) : json :=
  match json_body res with
  | Normal v => v
  | Throw _ => JNull
  end.

Definition says (r : Role) (s : jsstring) : Message :=
  {| role := r; text := Some (JStr s) |}.

Definition cancelled_text : jsstring :=
  warning_sign ++ lit " Request cancelled (newer request arrived).".

Definition network_text : jsstring :=
  warning_sign ++ lit " Network error or server error".

Definition error_prefix : jsstring := warning_sign ++ lit " Error: ".

(** The state a settlement leaves: one message more, not busy, the
    slot empty. *)
Definition settled_with (m : Message) (s : state) : state :=
  {| input := input s; messages := messages s ++ [m]; loading := false;
     status := status s; abortControllerRef := None;
     controllers := controllers s; calls := calls s |}.

(** The state an accepted submission leaves, in closed form. *)
Definition superseded (fault : option jsstring) (s : state) : list bool :=
  match abortControllerRef s, fault with
  | Some c, None => <[c := true]> (controllers s)
  | _, _ => controllers s
  end.

Definition supersession_calls (s : state) : list Call :=
  match abortControllerRef s with
  | Some c => [Call_abort c]
  | None => []
  end.

Definition chat_request (backend prompt : jsstring) (ac : nat) : Call :=
  Call_fetch (backend ++ lit "/chat")
    (Some {| method := lit "POST";
             headers := [(lit "Content-Type", lit "application/json")];
             body := stringify (JObj [(lit "prompt", JStr prompt)]);
             signal := ac |}).

Definition submitted (backend : jsstring) (fault : option jsstring) (s : state) : state :=
  {| input := [];
     messages := messages s ++ [says user (trim (input s))];
     loading := true;
     status := status s;
     abortControllerRef := Some (length (controllers s));
     controllers := superseded fault s ++ [false];
     calls := calls s ++ supersession_calls s
              ++ [chat_request backend (trim (input s)) (length (controllers s))] |}.

(** What holds of the bookkeeping in every reachable state: the
    waiting activations are distinct, their controllers and the one in
    the slot have been created. *)
Definition consistent (sys : system) : Prop :=
  NoDup (in_flight sys)
  /\ Forall (fun c => (c < length (controllers (component sys)))%nat) (in_flight sys)
  /\ (forall c, abortControllerRef (component sys) = Some c ->
                (c < length (controllers (component sys)))%nat).

(** Every accepted submission has its answer or still waits for it. *)
Definition balanced (sys : system) : Prop :=
  count is_user (messages (component sys))
  = (count is_assistant (messages (component sys)) + length (in_flight sys))%nat.

(** Nothing is left behind once nothing is in flight. *)
Definition quiescent (sys : system) : Prop :=
  in_flight sys = [] ->
  loading (component sys) = false /\ abortControllerRef (component sys) = None.

(** Whether an event is the settlement of a request. *)
Definition settles (ev : event) : bool :=
  match ev with
  | Settled _ _ => true
  | _ => false
  end.

(** ** Sample runs and responses *)

(** Two submissions, the second while the first is in flight. *)
Definition overlap : list event :=
  [Typed (lit "a"); Submitted None; Typed (lit "b"); Submitted None].

(** One submission, waiting for its answer. *)
Definition waiting : system :=
  run None (mounted None) [Typed (lit "a"); Submitted None].

(** The field holds a space, a tab and an ideographic space. *)
Definition blank_field : system :=
  react None (mounted None) (Typed [0x20; 0x09; 0x3000]).

Definition respond (code : N) (reason : jsstring) (parsed : settled json) : Response :=
  {| http_status := code; statusText := reason; json_body := parsed |}.

Definition generated (s : jsstring) : json :=
  JObj [(lit "output", JArr [JObj [(lit "generated_text", JStr s)]])].



(** A reply of 2500 code units. *)
Definition long_reply : jsstring := List.repeat 0x61 2500.


(** A second prompt typed while the first request is in flight. *)
Definition second_typed : system := react None waiting (Typed (lit "b")).

(** ** What the component renders (lines 80 to 125) *)

(** The text of [{status}]. *)
Definition Status_text (v : Status) : jsstring :=
  match v with
  | idle => lit "idle"
  | warming => lit "warming"
  | ready => lit "ready"
  end.

(** One entry of [messages.map] (lines 100 to 106): its [key], the
    class of the row, the class of the bubble and the child [{m.text}]. *)
Record Bubble := {
  key : nat;
  row_class : jsstring;
  bubble_class : jsstring;
  children : value
}.

Definition bubble (i : nat) (m : Message) : Bubble :=
  {| key := i;
     row_class :=
       lit "flex " ++ match role m with
                      | user => lit "justify-end"
                      | assistant => lit "justify-start"
                      end;
     bubble_class :=
       lit "rounded-xl p-3 max-w-[80%] "
       ++ match role m with
          | user => lit "bg-blue-600 text-white"
          | assistant => lit "bg-slate-700 text-slate-100"
          end;
     children := text m |}.

(** The parts of the returned element that depend on the state. *)
Record View := {
  status_class : jsstring;
  status_shown : jsstring;
  welcome : bool;
  bubbles : list Bubble;
  input_value : jsstring;
  button_disabled : bool;
  button_label : jsstring
}.

Definition render (s : state) : View :=
  {| status_class := match status s with
                     | ready => lit "text-green-300"
                     | _ => lit "text-yellow-300"
                     end;
     status_shown := Status_text (status s);
     welcome := bool_decide (length (messages s) = 0%nat);
     bubbles := imap bubble (messages s);
     input_value := input s;
     button_disabled := loading s;
     button_label := if loading s then lit "..." else lit "Send" |}.

(** ** What the user does (lines 112 to 121) *)

(** Editing the field ([onChange]), pressing a key in it ([onKeyDown])
    and clicking the button ([onClick]).  A disabled button delivers no
    click. *)
Inductive gesture :=
| Change (v : jsstring)
| KeyDown (pressed : jsstring) (abort_fault : option jsstring)
| Click (abort_fault : option jsstring).

(** What happens to the mounted component: a gesture, or the request of
    an activation or of the probe settles. *)
Inductive happening :=
| Did (g : gesture)
| Came (ac : nat) (x : exchange)
| ProbeCame (x : exchange).

Section Page.

Variable VITE_BACKEND_URL : option jsstring.

Definition handle (sys : system) (g : gesture) : system :=
  match g with
  | Change v => react VITE_BACKEND_URL sys (Typed v)
  | KeyDown pressed abort_fault =>
      if bool_decide (pressed = lit "Enter")
      then react VITE_BACKEND_URL sys (Submitted abort_fault)
      else sys
  | Click abort_fault =>
      if button_disabled (render (component sys)) then sys
      else react VITE_BACKEND_URL sys (Submitted abort_fault)
  end.

Definition happen (sys : system) (h : happening) : system :=
  match h with
  | Did g => handle sys g
  | Came ac x => react VITE_BACKEND_URL sys (Settled ac x)
  | ProbeCame x => react VITE_BACKEND_URL sys (ProbeSettled x)
  end.

Definition session (sys : system) (hs : list happening) : system :=
  fold_left happen hs sys.

End Page.

(** The event a happening comes down to, if any. *)
Definition event_of (sys : system) (h : happening) : option event :=
  match h with
  | Did (Change v) => Some (Typed v)
  | Did (KeyDown pressed abort_fault) =>
      if bool_decide (pressed = lit "Enter") then Some (Submitted abort_fault) else None
  | Did (Click abort_fault) =>
      if loading (component sys) then None else Some (Submitted abort_fault)
  | Came ac x => Some (Settled ac x)
  | ProbeCame x => Some (ProbeSettled x)
  end.

(** Anything but the Enter key. *)
Definition without_enter (h : happening) : bool :=
  match h with
  | Did (KeyDown pressed _) => negb (bool_decide (pressed = lit "Enter"))
  | _ => true
  end.

(** ** What was sent and what is shown *)

(** The prompts of the user messages of a log, oldest first. *)
Definition user_prompts (log : list Message) : list jsstring :=
  omap (fun m => match role m, text m with
                 | user, Some (JStr p) => Some p
                 | _, _ => None
                 end) log.

(** The calls of [fetch] that carry options: the chat requests. *)
Definition with_init (c : Call) : bool :=
  match c with
  | Call_fetch _ (Some _) => true
  | _ => false
  end.

Definition abort_target (c : Call) : option nat :=
  match c with
  | Call_abort t => Some t
  | Call_fetch _ _ => None
  end.

(** A string that [trim] would leave alone and that is not empty. *)
Definition clean_prompt (p : jsstring) : Prop :=
  p <> []
  /\ (forall c, head p = Some c -> is_white_space c = false)
  /\ (forall c, last p = Some c -> is_white_space c = false).

(** A session led with the button: two prompts sent by clicks, the
    second click while busy, a key that is not Enter, and the answer. *)
Definition button_session : list happening :=
  [Did (Change (lit "a")); Did (Click None); Did (Change (lit "b")); Did (Click None);
   Did (KeyDown (lit "x") None);
   Came 0%nat (Normal (respond 200 (lit "OK") (Normal (generated (lit "hi")))))].

(** A body whose [output] is a string. *)
Definition output_is_text : json := JObj [(lit "output", JStr (lit "hello"))].

(** A prompt typed, sent with Enter, and a second one typed while the
    first request is in flight. *)
Definition busy_with_prompt : system :=
  session None (mounted None)
    [Did (Change (lit "a")); Did (KeyDown (lit "Enter") None); Did (Change (lit "b"))].

(** ** What holds in every reachable state, as predicates *)

(** Every user message of the log holds a clean prompt. *)
Definition user_messages_clean (sys : system) : Prop :=
  forall m, m ∈ messages (component sys) -> role m = user ->
            exists p, m = says user p /\ clean_prompt p.

(** The chat requests issued are those of the user messages, in order,
    each with a controller of its own. *)
Definition requests_match_log (backend : jsstring) (sys : system) : Prop :=
  List.filter with_init (calls (component sys))
  = imap (fun i p => chat_request backend p i) (user_prompts (messages (component sys)))
  /\ length (user_prompts (messages (component sys)))
     = length (controllers (component sys)).

(** A controller in the slot is the latest one, in flight and not
    aborted. *)
Definition slot_is_latest (sys : system) : Prop :=
  forall c, abortControllerRef (component sys) = Some c ->
            c ∈ in_flight sys
            /\ S c = length (controllers (component sys))
            /\ controllers (component sys) !! c = Some false.

(** The controllers [abort()] was called on, oldest call first. *)
Definition aborts (cs : list Call) : list nat := omap abort_target cs.

(** No controller is aborted twice, and a signal is aborted by a call
    only. *)
Definition aborts_are_single (sys : system) : Prop :=
  NoDup (aborts (calls (component sys)))
  /\ (forall t, t ∈ aborts (calls (component sys)) ->
                (t < length (controllers (component sys)))%nat)
  /\ (forall c, abortControllerRef (component sys) = Some c ->
                c ∉ aborts (calls (component sys)))
  /\ (forall t, controllers (component sys) !! t = Some true ->
                t ∈ aborts (calls (component sys))).

(** No initial part of the log has more answers than prompts. *)
Definition answers_follow (sys : system) : Prop :=
  forall k, (count is_assistant (take k (messages (component sys)))
             <= count is_user (take k (messages (component sys))))%nat.

(** Nothing in flight and at rest, or one request in flight with its
    controller in the slot. *)
Definition one_at_a_time (sys : system) : Prop :=
  (in_flight sys = []
   /\ loading (component sys) = false
   /\ abortControllerRef (component sys) = None)
  \/ (exists c, in_flight sys = [c]
                /\ loading (component sys) = true
                /\ abortControllerRef (component sys) = Some c).

(** The calls the source can make. *)
Definition known_call (backend : jsstring) (c : Call) : Prop :=
  (exists t, c = Call_abort t)
  \/ c = Call_fetch (backend ++ lit "/ping") None
  \/ (exists p ac, c = chat_request backend p ac /\ clean_prompt p).

(** * Properties *)

(** ** Optional chaining and the guarded accesses *)

Lemma truthy_not_nullish v : truthy v = true -> nullish v = false.
Proof. destruct v as [[]|]; simpl; intros; congruence. Qed.

Lemma opt_member_nullish k v : nullish v = true -> opt_member k v = None.
Proof. destruct v as [[]|]; simpl; congruence. Qed.

Lemma opt_index0_nullish v : nullish v = true -> opt_index0 v = None.
Proof. destruct v as [[]|]; simpl; congruence. Qed.

Lemma get_member_defined k v s :
  nullish v = false -> get_member k v s = (Normal (opt_member k v), s).
Proof. destruct v as [[]|]; simpl; intros; try discriminate; reflexivity. Qed.

Lemma get_index0_defined v s :
  nullish v = false -> get_index0 v s = (Normal (opt_index0 v), s).
Proof. destruct v as [[]|]; simpl; intros; try discriminate; reflexivity. Qed.

Lemma opt_member_some k x : opt_member k (Some x) = member k x.
Proof. by destruct x. Qed.

(** A truthy end of the chain [data?.output?.[0]?.k] means that no link
    of the chain is [null] or [undefined]. *)
Lemma chain_links k data :
  truthy (opt_member k (opt_index0 (opt_member (lit "output") (Some data)))) = true ->
  nullish (Some data) = false
  /\ nullish (opt_member (lit "output") (Some data)) = false
  /\ nullish (opt_index0 (opt_member (lit "output") (Some data))) = false.
Proof.
  intros H.
  assert (H2 : nullish (opt_index0 (opt_member (lit "output") (Some data))) = false).
  { destruct (nullish (opt_index0 (opt_member (lit "output") (Some data)))) eqn:E; [|done].
    rewrite (opt_member_nullish _ _ E) in H. discriminate. }
  assert (H1 : nullish (opt_member (lit "output") (Some data)) = false).
  { destruct (nullish (opt_member (lit "output") (Some data))) eqn:E; [|done].
    rewrite (opt_index0_nullish _ E) in H2. discriminate. }
  assert (H0 : nullish (Some data) = false).
  { destruct (nullish (Some data)) eqn:E; [|done].
    rewrite (opt_member_nullish _ _ E) in H1. discriminate. }
  auto.
Qed.

(** The second look at the chain, without question marks, never throws
    once the first look was truthy. *)
Lemma guarded_access k data s :
  truthy (opt_member k (opt_index0 (opt_member (lit "output") (Some data)))) = true ->
  (let! o := get_member (lit "output") (Some data) in
   let! first := get_index0 o in
   get_member k first) s
  = (Normal (opt_member k (opt_index0 (opt_member (lit "output") (Some data)))), s).
Proof.
  intros H. destruct (chain_links _ _ H) as (H0 & H1 & H2).
  unfold bind.
  rewrite (get_member_defined _ _ s H0), (get_index0_defined _ s H1).
  apply get_member_defined, H2.
Qed.

(** The code of lines 56 to 65 computes the four-branch precedence; its
    [catch] is never entered. *)
Lemma extract_reply_precedence data s :
  extract_reply data s = (Normal (precedence_reply data), s).
Proof.
  unfold extract_reply, precedence_reply, try_catch.
  destruct (truthy (opt_member (lit "generated_text") _)) eqn:G.
  - by rewrite (guarded_access _ _ s G).
  - destruct (truthy (opt_member (lit "text") _)) eqn:T.
    + by rewrite (guarded_access _ _ s T).
    + destruct data; reflexivity.
Qed.

(** ** The two halves of [sendMessage] in closed form *)

Lemma superseded_length fault s : length (superseded fault s) = length (controllers s).
Proof.
  unfold superseded. destruct (abortControllerRef s), fault; auto using length_insert.
Qed.

Lemma sendMessage_ignored env fault s :
  trim (input s) = [] -> sendMessage env fault s = (Normal None, s).
Proof.
  intros H. unfold sendMessage, bind, get. simpl.
  rewrite bool_decide_eq_true_2 by done. reflexivity.
Qed.

Lemma sendMessage_accepted env fault s :
  trim (input s) <> [] ->
  sendMessage env fault s
  = (Normal (Some (length (controllers s))), submitted (BACKEND env) fault s).
Proof.
  intros H. unfold sendMessage, bind, get. simpl.
  rewrite bool_decide_eq_false_2 by done.
  unfold submitted, superseded, supersession_calls, chat_request, says.
  destruct s as [inp msgs ld st [c|] ctl cls]; simpl in *.
  - destruct fault as [e|]; simpl.
    + rewrite <- !app_assoc. reflexivity.
    + rewrite length_insert, <- !app_assoc. reflexivity.
  - reflexivity.
Qed.

Lemma resumed_rejected x e s :
  rejection x = Some e ->
  sendMessage_resumed x s
  = (Normal tt,
     settled_with (says assistant (if bool_decide (e = AbortError)
                                   then cancelled_text else network_text)) s).
Proof.
  unfold rejection, sendMessage_resumed, try_finally, try_catch, bind.
  destruct x as [res|e']; simpl.
  - destruct (ok res); simpl; [|discriminate].
    destruct (json_body res) as [data|e']; simpl; [discriminate|].
    intros [= ->]. by destruct (bool_decide (e = AbortError)).
  - intros [= ->]. by destruct (bool_decide (e = AbortError)).
Qed.

Lemma resumed_success res data s :
  ok res = true -> json_body res = Normal data ->
  sendMessage_resumed (Normal res) s
  = (Normal tt, settled_with {| role := assistant; text := precedence_reply data |} s).
Proof.
  intros Hok Hbody.
  unfold sendMessage_resumed, try_finally, try_catch, bind. simpl.
  rewrite Hok, Hbody. simpl. rewrite extract_reply_precedence. reflexivity.
Qed.

Lemma resumed_http_error res t s :
  ok res = false ->
  substitution (or_else (member (lit "error") (error_body res))
                        (Some (JStr (statusText res)))) s = (Normal t, s) ->
  sendMessage_resumed (Normal res) s
  = (Normal tt, settled_with (says assistant (error_prefix ++ t)) s).
Proof.
  intros Hok Hsub.
  unfold sendMessage_resumed, try_finally, try_catch, bind.
  cbn [await ret]. rewrite Hok. cbn [negb].
  replace (await (promise_catch (json_body res) JNull) s)
    with (Normal (error_body res), s)
    by (unfold error_body; destruct (json_body res); reflexivity).
  rewrite opt_member_some, Hsub. reflexivity.
Qed.

Lemma substitution_cases v s :
  (exists t, substitution v s = (Normal t, s)) \/ substitution v s = (Throw TypeError, s).
Proof.
  destruct v as [x|]; simpl; [|left; by eexists].
  destruct (ToString x); [left; by eexists | by right].
Qed.

(** When the substitution of line 52 throws, the [catch] of line 68
    takes over. *)
Lemma resumed_http_error_unconvertible res s :
  ok res = false ->
  substitution (or_else (member (lit "error") (error_body res))
                        (Some (JStr (statusText res)))) s = (Throw TypeError, s) ->
  sendMessage_resumed (Normal res) s
  = (Normal tt, settled_with (says assistant network_text) s).
Proof.
  intros Hok Hsub.
  unfold sendMessage_resumed, try_finally, try_catch, bind.
  cbn [await ret]. rewrite Hok. cbn [negb].
  replace (await (promise_catch (json_body res) JNull) s)
    with (Normal (error_body res), s)
    by (unfold error_body; destruct (json_body res); reflexivity).
  rewrite opt_member_some, Hsub. reflexivity.
Qed.

(** Whatever the request settles to, the resumed activation runs to
    its end, appends one assistant message, and leaves the component not
    busy with an empty slot. *)
Lemma resumed_settles x s :
  exists m, role m = assistant
            /\ sendMessage_resumed x s = (Normal tt, settled_with m s).
Proof.
  destruct (rejection x) as [e|] eqn:R.
  - eexists. split; [|apply (resumed_rejected _ _ _ R)]. reflexivity.
  - destruct x as [res|e]; [|discriminate]. simpl in R.
    destruct (ok res) eqn:Hok.
    + destruct (json_body res) as [data|e] eqn:Hb; [|discriminate].
      eexists. split; [|apply (resumed_success _ _ _ Hok Hb)]. reflexivity.
    + destruct (substitution_cases
                  (or_else (member (lit "error") (error_body res))
                           (Some (JStr (statusText res)))) s) as [[t Ht]|Ht].
      * eexists. split; [|apply (resumed_http_error _ _ _ Hok Ht)]. reflexivity.
      * eexists. split; [|apply (resumed_http_error_unconvertible _ _ Hok Ht)]. reflexivity.
Qed.

(** ** One event at a time *)

Lemma react_settled env sys ac x :
  ac ∈ in_flight sys ->
  react env sys (Settled ac x)
  = {| component := snd (sendMessage_resumed x (component sys));
       in_flight := filter (fun c => c <> ac) (in_flight sys);
       probe_pending := probe_pending sys |}.
Proof. intros H. simpl. by rewrite bool_decide_eq_true_2. Qed.

Lemma react_submitted env sys fault :
  trim (input (component sys)) <> [] ->
  react env sys (Submitted fault)
  = {| component := submitted (BACKEND env) fault (component sys);
       in_flight := in_flight sys ++ [length (controllers (component sys))];
       probe_pending := probe_pending sys |}.
Proof. intros H. simpl. by rewrite (sendMessage_accepted _ _ _ H). Qed.

Lemma react_submitted_blank env sys fault :
  trim (input (component sys)) = [] -> react env sys (Submitted fault) = sys.
Proof. intros H. simpl. rewrite (sendMessage_ignored _ _ _ H). by destruct sys. Qed.


(** ** Trimming *)

Lemma trimStart_blank s :
  Forall (fun c => is_white_space c = true) s -> trimStart s = [].
Proof. induction 1 as [|c s Hc _ IH]; simpl; [done|]. by rewrite Hc. Qed.

Lemma trimStart_nil_blank s :
  trimStart s = [] -> Forall (fun c => is_white_space c = true) s.
Proof.
  induction s as [|c s IH]; simpl; [constructor|].
  destruct (is_white_space c) eqn:Hc; [|discriminate].
  intros H. constructor; auto.
Qed.

Lemma trimStart_head s :
  trimStart s = [] \/ exists c t, trimStart s = c :: t /\ is_white_space c = false.
Proof.
  induction s as [|c s IH]; simpl; [by left|].
  destruct (is_white_space c) eqn:Hc; [done|]. right. eauto.
Qed.

(** [trim] gives the empty string exactly on the strings made of white
    space only (the empty one among them). *)
Lemma trim_blank s :
  trim s = [] <-> Forall (fun c => is_white_space c = true) s.
Proof.
  unfold trim, trimEnd. split.
  - intros H. apply (f_equal (@rev _)) in H. rewrite rev_involutive in H. simpl in H.
    apply trimStart_nil_blank in H.
    destruct (trimStart_head s) as [E|(c & t & E & Hc)].
    + by apply trimStart_nil_blank.
    + rewrite E in H. apply Forall_rev in H. rewrite rev_involutive in H.
      inversion H; congruence.
  - intros H. rewrite (trimStart_blank _ H). reflexivity.
Qed.

(** ** Claims *)

(** C9. For every input made of white space only (or empty), a
    submission changes nothing: no message is appended, no call is made
    (no request, no abort), the busy flag and the slot stay as they
    were, and no activation is left waiting. *)
Theorem C9_blank_input_is_ignored env fault sys :
  Forall (fun c => is_white_space c = true) (input (component sys)) ->
  sendMessage env fault (component sys) = (Normal None, component sys)
  /\ react env sys (Submitted fault) = sys.
Proof.
  intros H. apply trim_blank in H. split.
  - by apply sendMessage_ignored.
  - by apply react_submitted_blank.
Qed.

(** C3. For every response with a success status and a parsed body,
    the text of the appended assistant message is the one the
    four-branch precedence gives: [body.output[0].generated_text] when
    truthy, else [body.output[0].text] when truthy, else the body when
    it is a string, else the first 2000 code units of its JSON text.
    The extraction never leaves through its [catch].  The body
    [{"output":[{"generated_text":"hi"}]}] gives exactly ["hi"]. *)
Theorem C3_reply_follows_precedence env sys ac res data :
  ac ∈ in_flight sys ->
  ok res = true ->
  json_body res = Normal data ->
  extract_reply data (component sys) = (Normal (precedence_reply data), component sys)
  /\ messages (component (react env sys (Settled ac (Normal res))))
     = messages (component sys)
       ++ [{| role := assistant; text := precedence_reply data |}]
  /\ precedence_reply
       (JObj [(lit "output", JArr [JObj [(lit "generated_text", JStr (lit "hi"))]])])
     = Some (JStr (lit "hi")).
Proof.
  intros Hin Hok Hbody. split; [apply extract_reply_precedence|]. split; [|reflexivity].
  rewrite (react_settled _ _ _ _ Hin). simpl.
  by rewrite (resumed_success _ _ _ Hok Hbody).
Qed.

(** C10. The cut at 2000 code units belongs to the last branch only:
    when the reply comes from [generated_text], from [text] or from a
    body that is a string, the appended text is that value itself,
    whatever its length. *)
Theorem C10_no_cut_on_extracted_text env sys ac res data :
  ac ∈ in_flight sys ->
  ok res = true ->
  json_body res = Normal data ->
  let first := opt_index0 (opt_member (lit "output") (Some data)) in
  let appended := messages (component (react env sys (Settled ac (Normal res)))) in
  (truthy (opt_member (lit "generated_text") first) = true ->
   appended = messages (component sys)
              ++ [{| role := assistant; text := opt_member (lit "generated_text") first |}])
  /\ (truthy (opt_member (lit "generated_text") first) = false ->
      truthy (opt_member (lit "text") first) = true ->
      appended = messages (component sys)
                 ++ [{| role := assistant; text := opt_member (lit "text") first |}])
  /\ (forall s, data = JStr s -> appended = messages (component sys) ++ [says assistant s]).
Proof.
  intros Hin Hok Hbody first appended. subst appended.
  rewrite (react_settled _ _ _ _ Hin). simpl.
  rewrite (resumed_success _ _ _ Hok Hbody). simpl.
  unfold precedence_reply. fold first.
  split; [|split].
  - by intros ->.
  - by intros -> ->.
  - intros s ->. subst first. simpl. reflexivity.
Qed.

(** C5. For every exchange that fails below HTTP (the promise of
    [fetch] rejects, or the body of a success response cannot be read
    or parsed): when the error is the abort error, the one a request
    ends with once the [abort()] of a newer submission has reached its
    signal, the appended assistant message is exactly the cancellation
    text; for any other error it is exactly the network-error text. *)
Theorem C5_transport_failure_messages env sys ac x e :
  ac ∈ in_flight sys ->
  rejection x = Some e ->
  let appended := messages (component (react env sys (Settled ac x))) in
  (e = AbortError ->
   appended = messages (component sys)
              ++ [says assistant
                    (warning_sign ++ lit " Request cancelled (newer request arrived).")])
  /\ (e <> AbortError ->
      appended = messages (component sys)
                 ++ [says assistant (warning_sign ++ lit " Network error or server error")]).
Proof.
  intros Hin Hrej appended. subst appended.
  rewrite (react_settled _ _ _ _ Hin). simpl.
  rewrite (resumed_rejected _ _ _ Hrej). simpl.
  split; intros He.
  - by rewrite bool_decide_eq_true_2.
  - by rewrite bool_decide_eq_false_2.
Qed.


(** C7. For every accepted submission that finds a controller in the
    slot: [abort()] is called on it before the new request is issued;
    whether that call returns or throws, [sendMessage] goes on without
    throwing, puts a new controller in the slot and issues the request
    bound to its signal; when the call returns, the old signal is
    aborted. *)
Theorem C7_supersession env fault s c :
  trim (input s) <> [] ->
  abortControllerRef s = Some c ->
  let ac := length (controllers s) in
  exists s',
    sendMessage env fault s = (Normal (Some ac), s')
    /\ calls s' = calls s ++ [Call_abort c; chat_request (BACKEND env) (trim (input s)) ac]
    /\ abortControllerRef s' = Some ac
    /\ controllers s' !! ac = Some false
    /\ (fault = None -> (c < length (controllers s))%nat -> controllers s' !! c = Some true).
Proof.
  intros Hin Hc ac. exists (submitted (BACKEND env) fault s).
  split; [by apply sendMessage_accepted|].
  unfold submitted, supersession_calls. simpl. rewrite Hc.
  split; [reflexivity|]. split; [reflexivity|]. split.
  - rewrite lookup_app_r; rewrite superseded_length; [|done].
    subst ac. by rewrite Nat.sub_diag.
  - intros -> Hlt. unfold superseded. rewrite Hc.
    rewrite lookup_app_l by (by rewrite length_insert).
    by apply list_lookup_insert_eq.
Qed.

(** ** Runs *)

Lemma run_snoc env sys evs ev :
  run env sys (evs ++ [ev]) = react env (run env sys evs) ev.
Proof. unfold run. by rewrite fold_left_app. Qed.


(** Induction over the runs that start at the mounted component. *)
Lemma reachable_ind env (P : system -> Prop) :
  P (mounted env) ->
  (forall sys ev, P sys -> P (react env sys ev)) ->
  forall evs, P (run env (mounted env) evs).
Proof.
  intros H0 Hstep evs. induction evs as [|ev evs IH] using rev_ind; [exact H0|].
  rewrite run_snoc. by apply Hstep.
Qed.

Lemma probe_resumed_status x s :
  probe_resumed x s
  = setStatus (match x with Normal _ => ready | Throw _ => idle end) s.
Proof. by destruct x. Qed.

Lemma count_app {A} (p : A -> bool) l l' :
  count p (l ++ l') = (count p l + count p l')%nat.
Proof. unfold count. by rewrite List.filter_app, length_app. Qed.

Lemma count_singleton {A} (p : A -> bool) x :
  count p [x] = if p x then 1%nat else 0%nat.
Proof. unfold count. simpl. by destruct (p x). Qed.

Lemma length_filter_absent (x : nat) (l : list nat) :
  x ∉ l -> length (filter (fun c => c <> x) l) = length l.
Proof.
  induction l as [|y l IH]; [done|].
  rewrite not_elem_of_cons. intros [Hxy Hl].
  rewrite filter_cons_True by congruence. simpl. by rewrite IH.
Qed.

Lemma length_filter_present (x : nat) (l : list nat) :
  NoDup l -> x ∈ l -> S (length (filter (fun c => c <> x) l)) = length l.
Proof.
  induction l as [|y l IH]; [by rewrite elem_of_nil|].
  rewrite NoDup_cons, elem_of_cons. intros [Hy Hnd] [->|Hx].
  - rewrite filter_cons_False by tauto. simpl. by rewrite length_filter_absent.
  - assert (y <> x) by (intros ->; contradiction).
    rewrite filter_cons_True by done. simpl. by rewrite IH.
Qed.

(** The cases of one event, each with the state it leaves. *)
Lemma react_cases env sys ev :
  (component (react env sys ev) = component sys /\ in_flight (react env sys ev) = in_flight sys)
  \/ (exists v, ev = Typed v
                /\ component (react env sys ev) = snd (setInput v (component sys))
                /\ in_flight (react env sys ev) = in_flight sys)
  \/ (exists fault, ev = Submitted fault
                /\ trim (input (component sys)) <> []
                /\ component (react env sys ev) = submitted (BACKEND env) fault (component sys)
                /\ in_flight (react env sys ev)
                   = in_flight sys ++ [length (controllers (component sys))])
  \/ (exists ac x m, ev = Settled ac x
                /\ ac ∈ in_flight sys
                /\ role m = assistant
                /\ component (react env sys ev) = settled_with m (component sys)
                /\ in_flight (react env sys ev) = filter (fun c => c <> ac) (in_flight sys))
  \/ (exists x, ev = ProbeSettled x
                /\ probe_pending sys = true
                /\ component (react env sys ev)
                   = snd (setStatus (match x with Normal _ => ready | Throw _ => idle end)
                                    (component sys))
                /\ in_flight (react env sys ev) = in_flight sys).
Proof.
  destruct ev as [v|fault|ac x|x].
  - right; left. by exists v.
  - destruct (decide (trim (input (component sys)) = [])) as [Hb|Hb].
    + left. by rewrite (react_submitted_blank _ _ _ Hb).
    + right; right; left. exists fault. by rewrite (react_submitted _ _ _ Hb).
  - destruct (decide (ac ∈ in_flight sys)) as [Hin|Hin].
    + right; right; right; left.
      destruct (resumed_settles x (component sys)) as (m & Hm & E).
      exists ac, x, m. rewrite (react_settled _ _ _ _ Hin). simpl. by rewrite E.
    + left. simpl. by rewrite bool_decide_eq_false_2.
  - simpl. destruct (probe_pending sys) eqn:Hp.
    + right; right; right; right. exists x. simpl. by rewrite probe_resumed_status.
    + by left.
Qed.

Ltac by_cases env sys ev :=
  destruct (react_cases env sys ev)
    as [[Ec Ef]|[(v & -> & Ec & Ef)|[(fault & -> & Hin & Ec & Ef)
       |[(ac & x & m & -> & Hin & Hm & Ec & Ef)|(x & -> & Hp & Ec & Ef)]]]].

Lemma consistent_mounted env : consistent (mounted env).
Proof.
  repeat split; simpl; [constructor|constructor|discriminate].
Qed.

Lemma consistent_react env sys ev : consistent sys -> consistent (react env sys ev).
Proof.
  intros (Hnd & Hall & Hslot). unfold consistent.
  by_cases env sys ev; rewrite Ec, Ef; simpl; try done.
  - assert (Hlen : length (superseded fault (component sys) ++ [false])
                  = S (length (controllers (component sys)))).
    { rewrite length_app, superseded_length. simpl. lia. }
    repeat split.
    + apply NoDup_app. repeat split; [done| |apply NoDup_singleton].
      intros c Hc. rewrite list_elem_of_singleton. intros ->.
      rewrite Forall_forall in Hall. specialize (Hall _ Hc). lia.
    + apply Forall_app. split.
      * eapply Forall_impl; [exact Hall|]. simpl. intros c Hc. rewrite Hlen. lia.
      * constructor; [rewrite Hlen; lia|constructor].
    + intros c [= <-]. rewrite Hlen. lia.
  - repeat split.
    + by apply NoDup_filter.
    + rewrite Forall_forall in Hall |- *.
      intros c Hc. apply list_elem_of_filter in Hc as [_ Hc]. by apply Hall.
    + discriminate.
Qed.

Lemma balanced_mounted env : balanced (mounted env).
Proof. reflexivity. Qed.

Lemma balanced_react env sys ev :
  consistent sys -> balanced sys -> balanced (react env sys ev).
Proof.
  intros (Hnd & _ & _). unfold balanced.
  by_cases env sys ev; rewrite Ec, Ef; simpl; try done.
  - rewrite !count_app, !count_singleton, length_app. simpl. lia.
  - rewrite !count_app, !count_singleton.
    unfold is_user, is_assistant. rewrite Hm.
    pose proof (length_filter_present ac (in_flight sys) Hnd Hin). lia.
Qed.

Lemma quiescent_mounted env : quiescent (mounted env).
Proof. by split. Qed.

Lemma quiescent_react env sys ev : quiescent sys -> quiescent (react env sys ev).
Proof.
  unfold quiescent.
  by_cases env sys ev; rewrite Ec, Ef; simpl; try done.
  intros _ H. by apply app_eq_nil in H as [_ ?].
Qed.




(** In every reachable state the bookkeeping is consistent, every
    accepted submission has exactly one answer or still waits for it,
    and with nothing in flight the component is neither busy nor holds
    a controller. *)
Lemma reachable_invariant env evs :
  let sys := run env (mounted env) evs in
  consistent sys /\ balanced sys /\ quiescent sys.
Proof.
  apply (reachable_ind env (fun sys => consistent sys /\ balanced sys /\ quiescent sys)).
  - auto using consistent_mounted, balanced_mounted, quiescent_mounted.
  - intros sys ev (Hc & Hb & Hq).
    auto using consistent_react, balanced_react, quiescent_react.
Qed.

Lemma messages_react env sys ev :
  exists suffix,
    messages (component (react env sys ev)) = messages (component sys) ++ suffix
    /\ (length suffix <= 1)%nat.
Proof.
  by_cases env sys ev; rewrite Ec; simpl.
  - exists []. by rewrite app_nil_r; auto.
  - exists []. by rewrite app_nil_r; auto.
  - eexists. split; [reflexivity|simpl; lia].
  - eexists. split; [reflexivity|simpl; lia].
  - exists []. by rewrite app_nil_r; auto.
Qed.

Lemma messages_run env evs : forall sys,
  exists suffix, messages (component (run env sys evs)) = messages (component sys) ++ suffix.
Proof.
  induction evs as [|ev evs IH]; intros sys; simpl.
  - exists []. by rewrite app_nil_r.
  - destruct (IH (react env sys ev)) as [l2 E2].
    destruct (messages_react env sys ev) as (l1 & E1 & _).
    exists (l1 ++ l2). by rewrite E2, E1, app_assoc.
Qed.


(** ** The start-up probe *)


Lemma probe_pending_react env sys ev :
  (forall x, ev <> ProbeSettled x) ->
  probe_pending (react env sys ev) = probe_pending sys.
Proof.
  intros Hev. destruct ev as [v|fault|ac x|x]; simpl.
  - done.
  - by destruct (sendMessage env fault (component sys)) as [[[?|]|?] ?].
  - by destruct (bool_decide (ac ∈ in_flight sys)).
  - by destruct (Hev x).
Qed.



(** ** Overlapping submissions *)

(** The [finally] of lines 74 to 77 does not look at which controller
    the slot holds: every settlement empties the slot and clears the
    busy flag. *)
Lemma settlement_resets env sys ac x :
  ac ∈ in_flight sys ->
  abortControllerRef (component (react env sys (Settled ac x))) = None
  /\ loading (component (react env sys (Settled ac x))) = false.
Proof.
  intros Hin. rewrite (react_settled _ _ _ _ Hin). cbn [component].
  by destruct (resumed_settles x (component sys)) as (m & _ & ->).
Qed.

(** An accepted submission sets the busy flag and fills the slot. *)
Lemma submission_sets env sys fault :
  trim (input (component sys)) <> [] ->
  loading (component (react env sys (Submitted fault))) = true
  /\ abortControllerRef (component (react env sys (Submitted fault)))
     = Some (length (controllers (component sys))).
Proof. intros Hin. by rewrite (react_submitted _ _ _ Hin). Qed.

(** The busy flag is never stuck and the slot never stays occupied:
    in every reachable state with nothing in flight, the flag is false
    and the slot is empty. *)
Lemma never_stuck env evs :
  let sys := run env (mounted env) evs in
  in_flight sys = [] ->
  loading (component sys) = false /\ abortControllerRef (component sys) = None.
Proof. apply (reachable_invariant env evs). Qed.

(** C1, on the code: after the overlap the slot holds the controller
    of the second request, and the first one's signal is aborted; when
    the first request then settles with the abort error, its [finally]
    empties the slot although the second request is still in flight.
    A third submission therefore finds the slot empty and does not
    abort the second request: both stay in flight. *)
Theorem C1_stale_settlement_empties_slot :
  let sys := run None (mounted None) overlap in
  let sys' := react None sys (Settled 0%nat (Throw AbortError)) in
  let sys'' := run None sys' [Typed (lit "c"); Submitted None] in
  (in_flight sys = [0; 1]%nat
   /\ abortControllerRef (component sys) = Some 1%nat
   /\ controllers (component sys) = [true; false])
  /\ (in_flight sys' = [1%nat]
      /\ abortControllerRef (component sys') = None)
  /\ (in_flight sys'' = [1; 2]%nat
      /\ controllers (component sys'') = [true; false; false]
      /\ calls (component sys'')
         = calls (component sys') ++ [chat_request (BACKEND None) (lit "c") 2]).
Proof. vm_compute. repeat split. Qed.

(** C2 as the specification words it fails on the overlap: the
    settlement of the first request clears the busy flag while the
    second request is still in flight. *)
Lemma C2_busy_flag_cleared_in_flight :
  let sys := run None (mounted None) overlap in
  let sys' := react None sys (Settled 0%nat (Throw AbortError)) in
  (loading (component sys) = true /\ in_flight sys = [0; 1]%nat)
  /\ (loading (component sys') = false /\ in_flight sys' = [1%nat]).
Proof. vm_compute. repeat split. Qed.

Lemma busy_until_settlement env sys ev :
  settles ev = false ->
  loading (component sys) = true ->
  loading (component (react env sys ev)) = true.
Proof.
  intros Hev Hl. by_cases env sys ev; rewrite Ec; simpl; try done.
Qed.

Lemma busy_until_settlement_run env evs : forall sys,
  Forall (fun ev => settles ev = false) evs ->
  loading (component sys) = true ->
  loading (component (run env sys evs)) = true.
Proof.
  induction evs as [|ev evs IH]; intros sys Hevs Hl; simpl; [done|].
  inversion Hevs; subst. apply IH; [done|]. by apply busy_until_settlement.
Qed.

(** C2, as the code has it.  Every accepted submission sets the busy
    flag, and the flag stays set as long as no request settles; when
    the only request in flight settles, whatever the outcome (success,
    HTTP error, network error, cancellation), the flag is cleared; and
    in every reachable state with nothing in flight the flag is clear,
    so that it is never stuck. *)
Theorem C2_busy_flag_set_and_cleared env :
  loading (component (mounted env)) = false
  /\ (forall sys fault, trim (input (component sys)) <> [] ->
        loading (component (react env sys (Submitted fault))) = true)
  /\ (forall sys fault evs, trim (input (component sys)) <> [] ->
        Forall (fun ev => settles ev = false) evs ->
        loading (component (run env (react env sys (Submitted fault)) evs)) = true)
  /\ (forall sys ac x, in_flight sys = [ac] ->
        loading (component (react env sys (Settled ac x))) = false
        /\ in_flight (react env sys (Settled ac x)) = [])
  /\ (forall evs,
        let sys := run env (mounted env) evs in
        in_flight sys = [] -> loading (component sys) = false).
Proof.
  split; [reflexivity|]. split; [|split; [|split]].
  - intros sys fault Hin. apply (submission_sets env sys fault Hin).
  - intros sys fault evs Hin Hevs. apply busy_until_settlement_run; [done|].
    apply (submission_sets env sys fault Hin).
  - intros sys ac x Hin.
    assert (Hac : ac ∈ in_flight sys) by (rewrite Hin; apply list_elem_of_here).
    split; [apply (settlement_resets env sys ac x Hac)|].
    rewrite (react_settled _ _ _ _ Hac). cbn [in_flight]. rewrite Hin.
    by rewrite filter_cons_False, filter_nil by tauto.
  - intros evs sys H. apply (never_stuck env evs H).
Qed.

(** ** The [error] field that is present and empty *)


(** ** The claims at sample inputs *)

Lemma waiting_in_flight : 0%nat ∈ in_flight waiting.
Proof. vm_compute. constructor. Defined.

(** C9 on a field holding a space, a tab and an ideographic space. *)
Lemma C9_blank_field_is_ignored :
  Forall (fun c => is_white_space c = true) (input (component blank_field))
  /\ sendMessage None None (component blank_field) = (Normal None, component blank_field)
  /\ react None blank_field (Submitted None) = blank_field.
Proof.
  assert (H : Forall (fun c => is_white_space c = true) (input (component blank_field)))
    by (vm_compute; repeat constructor).
  split; [exact H|]. exact (C9_blank_input_is_ignored None None blank_field H).
Defined.

(** C3 on the body [{"output":[{"generated_text":"hi"}]}] with status 200. *)
Lemma C3_hi_is_rendered :
  0%nat ∈ in_flight waiting
  /\ ok (respond 200 (lit "OK") (Normal (generated (lit "hi")))) = true
  /\ messages (component
       (react None waiting
          (Settled 0%nat (Normal (respond 200 (lit "OK") (Normal (generated (lit "hi"))))))))
     = messages (component waiting)
       ++ [{| role := assistant; text := precedence_reply (generated (lit "hi")) |}]
  /\ precedence_reply (generated (lit "hi")) = Some (JStr (lit "hi")).
Proof.
  split; [exact waiting_in_flight|]. split; [reflexivity|].
  exact (proj2 (C3_reply_follows_precedence None waiting 0%nat
                  (respond 200 (lit "OK") (Normal (generated (lit "hi"))))
                  (generated (lit "hi")) waiting_in_flight eq_refl eq_refl)).
Defined.

(** C10 on a [generated_text] of 2500 code units. *)
Lemma C10_long_reply_is_kept :
  0%nat ∈ in_flight waiting
  /\ length long_reply = 2500%nat
  /\ messages (component
       (react None waiting
          (Settled 0%nat (Normal (respond 200 (lit "OK") (Normal (generated long_reply)))))))
     = messages (component waiting) ++ [says assistant long_reply].
Proof.
  split; [exact waiting_in_flight|]. split; [reflexivity|].
  exact (proj1 (C10_no_cut_on_extracted_text None waiting 0%nat
                  (respond 200 (lit "OK") (Normal (generated long_reply)))
                  (generated long_reply) waiting_in_flight eq_refl eq_refl) eq_refl).
Defined.

(** C5 on an aborted request and on a success response whose body
    does not parse. *)
Lemma C5_abort_and_network_failure :
  0%nat ∈ in_flight waiting
  /\ rejection (Throw AbortError) = Some AbortError
  /\ rejection (Normal (respond 200 (lit "OK") (Throw (lit "SyntaxError"))))
     = Some (lit "SyntaxError")
  /\ messages (component (react None waiting (Settled 0%nat (Throw AbortError))))
     = messages (component waiting)
       ++ [says assistant
             (warning_sign ++ lit " Request cancelled (newer request arrived).")]
  /\ messages (component
       (react None waiting
          (Settled 0%nat (Normal (respond 200 (lit "OK") (Throw (lit "SyntaxError")))))))
     = messages (component waiting)
       ++ [says assistant (warning_sign ++ lit " Network error or server error")].
Proof.
  split; [exact waiting_in_flight|]. split; [reflexivity|]. split; [reflexivity|]. split.
  - exact (proj1 (C5_transport_failure_messages None waiting 0%nat (Throw AbortError)
                    AbortError waiting_in_flight eq_refl) eq_refl).
  - refine (proj2 (C5_transport_failure_messages None waiting 0%nat
                     (Normal (respond 200 (lit "OK") (Throw (lit "SyntaxError"))))
                     (lit "SyntaxError") waiting_in_flight eq_refl) _).
    discriminate.
Defined.


(** C7 on a second submission while the first request is in flight,
    once with an [abort()] that throws and once with one that returns. *)
Lemma C7_failing_abort_is_absorbed :
  trim (input (component second_typed)) <> []
  /\ abortControllerRef (component second_typed) = Some 0%nat
  /\ (exists s',
        sendMessage None (Some (lit "InvalidStateError")) (component second_typed)
        = (Normal (Some 1%nat), s')
        /\ calls s' = calls (component second_typed)
                      ++ [Call_abort 0; chat_request (BACKEND None) (lit "b") 1]
        /\ abortControllerRef s' = Some 1%nat)
  /\ (exists s',
        sendMessage None None (component second_typed) = (Normal (Some 1%nat), s')
        /\ calls s' = calls (component second_typed)
                      ++ [Call_abort 0; chat_request (BACKEND None) (lit "b") 1]
        /\ controllers s' = [true; false]).
Proof.
  assert (H : trim (input (component second_typed)) <> []) by discriminate.
  split; [exact H|]. split; [reflexivity|]. split.
  - destruct (C7_supersession None (Some (lit "InvalidStateError"))
                (component second_typed) 0%nat H eq_refl) as (s' & E & Hc & Hs & _).
    exists s'. auto.
  - destruct (C7_supersession None None (component second_typed) 0%nat H eq_refl)
      as (s' & E & Hc & _).
    exists s'. split; [exact E|]. split; [exact Hc|].
    injection E as <-. reflexivity.
Defined.


(** ** The reply on the body shapes of the interface *)

Example reply_of_text_field :
  precedence_reply (JObj [(lit "output", JArr [JObj [(lit "text", JStr (lit "hey"))]])])
  = Some (JStr (lit "hey")).
Proof. reflexivity. Qed.

Example reply_of_bare_string :
  precedence_reply (JStr (lit "ok")) = Some (JStr (lit "ok")).
Proof. reflexivity. Qed.

Example reply_of_unrecognized_object :
  precedence_reply (JObj [(lit "results", JArr [JNum (lit "1"); JNull])])
  = Some (JStr (lit "{" ++ [0x22] ++ lit "results" ++ [0x22] ++ lit ":[1,null]}")).
Proof. reflexivity. Qed.

(** [generated_text] wins over [text]; an empty [generated_text] does
    not. *)
Example reply_prefers_generated_text :
  precedence_reply
    (JObj [(lit "output",
            JArr [JObj [(lit "text", JStr (lit "t")); (lit "generated_text", JStr (lit "g"))]])])
  = Some (JStr (lit "g"))
  /\ precedence_reply
       (JObj [(lit "output",
               JArr [JObj [(lit "generated_text", JStr []); (lit "text", JStr (lit "t"))]])])
     = Some (JStr (lit "t")).
Proof. split; reflexivity. Qed.

(** A serialized body longer than 2000 code units is cut there. *)
Example reply_is_cut_at_2000 :
  match precedence_reply (JArr [JStr long_reply]) with
  | Some (JStr s) => length s = 2000%nat
  | _ => False
  end.
Proof. vm_compute. reflexivity. Qed.

(** * Further properties of the code *)

(** ** What [trim] keeps *)

Lemma trimStart_split s :
  exists w, s = w ++ trimStart s /\ Forall (fun c => is_white_space c = true) w.
Proof.
  induction s as [|c s (w & E & Hw)]; simpl.
  - by exists [].
  - destruct (is_white_space c) eqn:Hc.
    + exists (c :: w). split; [simpl; by rewrite <- E | by constructor].
    + by exists [].
Qed.

Lemma trimStart_clean s :
  (forall c, head s = Some c -> is_white_space c = false) -> trimStart s = s.
Proof.
  destruct s as [|c s]; simpl; [done|]. intros H. by rewrite (H c eq_refl).
Qed.

Lemma head_rev_last (s : jsstring) : head (rev s) = last s.
Proof.
  induction s as [|c s IH] using rev_ind; [done|].
  by rewrite rev_app_distr, last_snoc.
Qed.

Lemma trim_interior s :
  (exists l r, s = l ++ trim s ++ r
               /\ Forall (fun c => is_white_space c = true) l
               /\ Forall (fun c => is_white_space c = true) r)
  /\ (forall c, head (trim s) = Some c -> is_white_space c = false)
  /\ (forall c, last (trim s) = Some c -> is_white_space c = false).
Proof.
  unfold trim, trimEnd.
  destruct (trimStart_split s) as (w1 & E1 & H1).
  destruct (trimStart_split (rev (trimStart s))) as (w2 & E2 & H2).
  set (u := trimStart s) in *. set (v := trimStart (rev u)) in *.
  assert (Eu : u = rev v ++ rev w2).
  { rewrite <- (rev_involutive u), E2. by rewrite rev_app_distr. }
  assert (Hlast : forall c, last (rev v) = Some c -> is_white_space c = false).
  { intros c. rewrite <- head_rev_last, rev_involutive. subst v.
    destruct (trimStart_head (rev u)) as [->|(c' & t & -> & Hc')]; [done|].
    by intros [= <-]. }
  split; [|split].
  - exists w1, (rev w2). split; [by rewrite <- Eu|]. split; [done|].
    by apply Forall_rev.
  - intros c Hc. destruct (rev v) as [|c' t] eqn:Ev; [done|].
    simpl in Hc. injection Hc as ->.
    subst u. destruct (trimStart_head s) as [E|(c'' & t'' & E & Hc'')].
    + rewrite E in Eu. discriminate.
    + rewrite E in Eu. simpl in Eu. by injection Eu as -> _.
  - exact Hlast.
Qed.

Lemma trim_clean p : clean_prompt p -> trim p = p.
Proof.
  intros (_ & Hh & Hl). unfold trim, trimEnd.
  rewrite (trimStart_clean p Hh).
  rewrite trimStart_clean; [apply rev_involutive|].
  intros c. rewrite head_rev_last. apply Hl.
Qed.

Lemma trim_gives_clean s : trim s <> [] -> clean_prompt (trim s).
Proof.
  intros H. destruct (trim_interior s) as (_ & Hh & Hl). by repeat split.
Qed.

(** X1. [trim] removes white space at both ends and nothing else: the
    input is the trimmed text between two runs of white space; the
    trimmed text, when there is any, neither begins nor ends with white
    space; and trimming again changes nothing. *)
Theorem X1_trim_keeps_the_interior s :
  (exists l r, s = l ++ trim s ++ r
               /\ Forall (fun c => is_white_space c = true) l
               /\ Forall (fun c => is_white_space c = true) r)
  /\ (forall c, head (trim s) = Some c -> is_white_space c = false)
  /\ (forall c, last (trim s) = Some c -> is_white_space c = false)
  /\ trim (trim s) = trim s.
Proof.
  destruct (trim_interior s) as (H1 & H2 & H3).
  split; [done|]. split; [done|]. split; [done|].
  destruct (decide (trim s = [])) as [E|E]; [by rewrite E|].
  apply trim_clean, trim_gives_clean, E.
Qed.

(** ** The answer depends on the outcome only *)

Lemma substitution_uniform v :
  (exists t, forall s, substitution v s = (Normal t, s))
  \/ (forall s, substitution v s = (Throw TypeError, s)).
Proof.
  destruct v as [x|]; simpl; [|left; by eexists].
  destruct (ToString x); [left; by eexists | by right].
Qed.

Lemma resumed_uniform x :
  exists m, role m = assistant
            /\ forall s, sendMessage_resumed x s = (Normal tt, settled_with m s).
Proof.
  destruct (rejection x) as [e|] eqn:R.
  - eexists. split; [|intros s; apply (resumed_rejected _ _ _ R)]. reflexivity.
  - destruct x as [res|e]; [|discriminate]. simpl in R.
    destruct (ok res) eqn:Hok.
    + destruct (json_body res) as [data|e] eqn:Hb; [|discriminate].
      eexists. split; [|intros s; apply (resumed_success _ _ _ Hok Hb)]. reflexivity.
    + destruct (substitution_uniform
                  (or_else (member (lit "error") (error_body res))
                           (Some (JStr (statusText res))))) as [[t Ht]|Ht].
      * eexists. split; [|intros s; apply (resumed_http_error _ _ _ Hok (Ht s))].
        reflexivity.
      * eexists. split; [|intros s; apply (resumed_http_error_unconvertible _ _ Hok (Ht s))].
        reflexivity.
Qed.

(** ** Submitting twice *)

Lemma submitted_input backend fault s : input (submitted backend fault s) = [].
Proof. reflexivity. Qed.

(** X2. A submission right after a submission does nothing: the first
    one, when accepted, has emptied the field, and when ignored has left
    it blank.  Pressing Enter twice sends one request. *)
Theorem X2_second_submission_is_ignored env sys fault fault' :
  react env (react env sys (Submitted fault)) (Submitted fault')
  = react env sys (Submitted fault).
Proof.
  destruct (decide (trim (input (component sys)) = [])) as [Hb|Hb].
  - rewrite (react_submitted_blank _ _ fault Hb).
    by apply react_submitted_blank.
  - apply react_submitted_blank. by rewrite (react_submitted _ _ _ Hb).
Qed.

(** ** The probe and the chat do not meet *)

Lemma settled_with_setStatus m v s :
  settled_with m (snd (setStatus v s)) = snd (setStatus v (settled_with m s)).
Proof. reflexivity. Qed.

Lemma submitted_setStatus backend fault v s :
  submitted backend fault (snd (setStatus v s))
  = snd (setStatus v (submitted backend fault s)).
Proof. reflexivity. Qed.

Lemma react_probe_idle env sys x :
  probe_pending sys = false -> react env sys (ProbeSettled x) = sys.
Proof. intros H. simpl. by rewrite H. Qed.

Lemma react_probe_pending env sys x :
  probe_pending sys = true ->
  react env sys (ProbeSettled x)
  = {| component := snd (setStatus (match x with Normal _ => ready | Throw _ => idle end)
                                   (component sys));
       in_flight := in_flight sys;
       probe_pending := false |}.
Proof. intros H. simpl. by rewrite H, probe_resumed_status. Qed.

(** X3. The settlement of the probe commutes with every event of the
    chat: typing, submitting and the settlement of a request give the
    same state whether the probe settles before or after them.  The
    probe neither delays nor alters a submission, and the chat never
    alters the status. *)
Theorem X3_probe_commutes_with_chat env sys x ev :
  (forall y, ev <> ProbeSettled y) ->
  react env (react env sys (ProbeSettled x)) ev
  = react env (react env sys ev) (ProbeSettled x).
Proof.
  intros Hev.
  assert (Hp : probe_pending (react env sys ev) = probe_pending sys)
    by (by apply probe_pending_react).
  destruct (probe_pending sys) eqn:Epend.
  2: { rewrite (react_probe_idle env sys x Epend).
       by rewrite (react_probe_idle env (react env sys ev) x Hp). }
  rewrite (react_probe_pending env sys x Epend).
  rewrite (react_probe_pending env (react env sys ev) x Hp).
  set (v := match x with Normal _ => ready | Throw _ => idle end).
  destruct ev as [t|fault|ac y|y]; [| | |by destruct (Hev y)].
  - reflexivity.
  - destruct (decide (trim (input (component sys)) = [])) as [Hb|Hb].
    + rewrite (react_submitted_blank env sys fault Hb).
      by rewrite react_submitted_blank.
    + rewrite (react_submitted env sys fault Hb).
      by rewrite react_submitted.
  - destruct (decide (ac ∈ in_flight sys)) as [Hin|Hin].
    + rewrite (react_settled env sys ac y Hin).
      rewrite react_settled by done.
      destruct (resumed_uniform y) as (m & _ & Hm).
      cbn [component in_flight probe_pending]. by rewrite !Hm.
    + simpl. by rewrite !bool_decide_eq_false_2.
Qed.

(** ** What the log and the calls keep in every reachable state *)

Lemma user_prompts_app l l' : user_prompts (l ++ l') = user_prompts l ++ user_prompts l'.
Proof. apply omap_app. Qed.

Lemma user_prompts_assistant m : role m = assistant -> user_prompts [m] = [].
Proof. unfold user_prompts. simpl. by intros ->. Qed.

Lemma user_messages_clean_react env sys ev :
  user_messages_clean sys -> user_messages_clean (react env sys ev).
Proof.
  unfold user_messages_clean. intros IH.
  by_cases env sys ev; rewrite Ec; simpl; try done.
  - intros m' [Hm'|Hm']%elem_of_app Hr; [by apply IH|].
    apply list_elem_of_singleton in Hm' as ->.
    eexists. split; [reflexivity|]. by apply trim_gives_clean.
  - intros m' [Hm'|Hm']%elem_of_app Hr; [by apply IH|].
    apply list_elem_of_singleton in Hm' as ->. congruence.
Qed.

Lemma user_messages_clean_reachable env evs :
  user_messages_clean (run env (mounted env) evs).
Proof.
  apply (reachable_ind env user_messages_clean).
  - intros m' Hm'. by apply elem_of_nil in Hm'.
  - intros sys ev. apply user_messages_clean_react.
Qed.

(** X4. In every reachable state each user message of the log holds a
    string that is not empty and neither begins nor ends with white
    space: what is logged is what [trim] leaves alone. *)
Theorem X4_user_messages_are_trimmed env evs m :
  m ∈ messages (component (run env (mounted env) evs)) ->
  role m = user ->
  exists p, m = says user p /\ clean_prompt p /\ trim p = p.
Proof.
  intros Hm Hr.
  destruct (user_messages_clean_reachable env evs m Hm Hr) as (p & -> & Hp).
  exists p. auto using trim_clean.
Qed.

Lemma requests_match_log_react env sys ev :
  requests_match_log (BACKEND env) sys -> requests_match_log (BACKEND env) (react env sys ev).
Proof.
  unfold requests_match_log. intros [IH1 IH2].
  by_cases env sys ev; rewrite Ec; simpl; try done.
  - rewrite !List.filter_app, user_prompts_app, imap_app, length_app, length_app.
    rewrite superseded_length. split; [|simpl; lia].
    rewrite IH1. f_equal.
    replace (List.filter with_init (supersession_calls (component sys))) with (@nil Call)
      by (unfold supersession_calls; by destruct (abortControllerRef (component sys))).
    simpl. by rewrite Nat.add_0_r, IH2.
  - rewrite user_prompts_app, (user_prompts_assistant m Hm), app_nil_r. done.
Qed.

(** X5. In every reachable state the chat requests issued so far are,
    in order, one [POST BACKEND/chat] per user message of the log, each
    with that message's text as its prompt and with a controller of its
    own: the request of the [i]-th user message is bound to the signal
    of the [i]-th controller, and there are as many controllers as user
    messages. *)
Theorem X5_one_request_per_user_message env evs :
  let sys := run env (mounted env) evs in
  List.filter with_init (calls (component sys))
  = imap (fun i p => chat_request (BACKEND env) p i)
         (user_prompts (messages (component sys)))
  /\ length (user_prompts (messages (component sys)))
     = length (controllers (component sys)).
Proof.
  apply (reachable_ind env (requests_match_log (BACKEND env))).
  - by split.
  - intros sys ev. apply requests_match_log_react.
Qed.

(** ** The slot and the aborts *)

Lemma slot_is_latest_react env sys ev : slot_is_latest sys -> slot_is_latest (react env sys ev).
Proof.
  unfold slot_is_latest. intros IH.
  by_cases env sys ev; rewrite Ec, Ef; simpl; try done.
  intros c [= <-]. split; [|split].
  - apply elem_of_app. right. apply list_elem_of_here.
  - rewrite length_app, superseded_length. simpl. lia.
  - rewrite lookup_app_r; rewrite superseded_length; [|done].
    by rewrite Nat.sub_diag.
Qed.

Lemma slot_is_latest_reachable env evs : slot_is_latest (run env (mounted env) evs).
Proof.
  apply (reachable_ind env slot_is_latest); [done|].
  intros sys ev. apply slot_is_latest_react.
Qed.

(** X6. In every reachable state a controller in the slot is the one
    created last, its request is still in flight and its signal is not
    aborted.  So the [abort()] of a submission only ever reaches the
    request issued just before it, and never a request that has
    settled. *)
Theorem X6_slot_holds_latest_live_request env evs c :
  let sys := run env (mounted env) evs in
  abortControllerRef (component sys) = Some c ->
  c ∈ in_flight sys
  /\ S c = length (controllers (component sys))
  /\ controllers (component sys) !! c = Some false.
Proof. intros sys. apply (slot_is_latest_reachable env evs). Qed.

Lemma aborts_app cs cs' : aborts (cs ++ cs') = aborts cs ++ aborts cs'.
Proof. apply omap_app. Qed.

Lemma aborts_submitted backend fault s :
  aborts (calls (submitted backend fault s))
  = aborts (calls s) ++ match abortControllerRef s with Some c => [c] | None => [] end.
Proof.
  unfold submitted, supersession_calls. simpl. rewrite !aborts_app.
  destruct (abortControllerRef s); simpl; by rewrite ?app_nil_r.
Qed.

Lemma aborts_are_single_react env sys ev :
  slot_is_latest sys -> aborts_are_single sys -> aborts_are_single (react env sys ev).
Proof.
  unfold aborts_are_single. intros Hslot (Hnd & Hlt & Hfresh & Htrue).
  by_cases env sys ev; rewrite Ec; try done.
  - rewrite aborts_submitted.
    assert (Hlen : length (controllers (submitted (BACKEND env) fault (component sys)))
                   = S (length (controllers (component sys)))).
    { simpl. rewrite length_app, superseded_length. simpl. lia. }
    rewrite Hlen. cbn [abortControllerRef controllers submitted].
    destruct (abortControllerRef (component sys)) as [c|] eqn:Eslot.
    + destruct (Hslot c Eslot) as (_ & Hc & Hfalse).
      split; [|split; [|split]].
      * apply NoDup_app. split; [done|]. split; [|apply NoDup_singleton].
        intros t Ht. rewrite list_elem_of_singleton. intros ->. by apply (Hfresh c).
      * intros t [Ht|Ht]%elem_of_app; [specialize (Hlt t Ht); lia|].
        apply list_elem_of_singleton in Ht as ->. lia.
      * intros c' [= <-] [Ht|Ht]%elem_of_app; [specialize (Hlt _ Ht); lia|].
        apply list_elem_of_singleton in Ht. lia.
      * intros t Ht. apply elem_of_app.
        unfold superseded in Ht. rewrite Eslot in Ht.
        destruct (decide (t = c)) as [->|Hne]; [right; apply list_elem_of_here|].
        left. apply Htrue.
        apply lookup_app_Some in Ht as [Ht|[Hge Ht]].
        -- destruct fault; [done|]. by rewrite list_lookup_insert_ne in Ht.
        -- by destruct (t - _)%nat as [|[|?]].
    + rewrite app_nil_r. split; [done|]. split; [|split].
      * intros t Ht. specialize (Hlt t Ht). lia.
      * intros c' [= <-] Ht. specialize (Hlt _ Ht). lia.
      * intros t Ht. apply Htrue.
        unfold superseded in Ht. rewrite Eslot in Ht.
        apply lookup_app_Some in Ht as [Ht|[Hge Ht]]; [done|].
        by destruct (t - _)%nat as [|[|?]].
Qed.

(** X7. In every reachable state no controller has been the target of
    [abort()] twice, every target is a controller that was created, and
    a signal that is aborted was aborted by such a call: a request is
    cancelled at most once, and only by a later submission. *)
Theorem X7_each_request_aborted_at_most_once env evs :
  let sys := run env (mounted env) evs in
  NoDup (aborts (calls (component sys)))
  /\ (forall t, t ∈ aborts (calls (component sys)) ->
                (t < length (controllers (component sys)))%nat)
  /\ (forall t, controllers (component sys) !! t = Some true ->
                t ∈ aborts (calls (component sys))).
Proof.
  intros sys.
  assert (H : slot_is_latest sys /\ aborts_are_single sys).
  { apply (reachable_ind env (fun sys => slot_is_latest sys /\ aborts_are_single sys)).
    - split; [done|]. repeat split; simpl; try done.
      + constructor.
      + intros t Ht. by apply elem_of_nil in Ht.
    - intros sys' ev [H1 H2].
      auto using slot_is_latest_react, aborts_are_single_react. }
  destruct H as (_ & H1 & H2 & _ & H4). auto.
Qed.

(** ** Answers come after their prompts *)

Lemma take_snoc_cases {A} (l : list A) (x : A) k :
  take k (l ++ [x]) = take k l \/ take k (l ++ [x]) = l ++ [x].
Proof.
  destruct (decide (k <= length l)%nat) as [H|H].
  - left. by apply take_app_le.
  - right. apply take_ge. rewrite length_app. simpl. lia.
Qed.

Lemma answers_follow_react env sys ev :
  consistent sys -> balanced sys -> answers_follow sys -> answers_follow (react env sys ev).
Proof.
  unfold answers_follow, balanced. intros (Hnd & _ & _) Hbal IH.
  assert (Hall := IH (length (messages (component sys)))). rewrite take_ge in Hall by done.
  by_cases env sys ev; rewrite Ec; simpl; try done.
  - intros k. destruct (take_snoc_cases (messages (component sys))
                          (says user (trim (input (component sys)))) k) as [->| ->]; [done|].
    rewrite !count_app, !count_singleton. simpl. lia.
  - intros k. destruct (take_snoc_cases (messages (component sys)) m k) as [->| ->]; [done|].
    assert (Ea : is_assistant m = true) by (unfold is_assistant; by rewrite Hm).
    assert (Eu : is_user m = false) by (unfold is_user; by rewrite Hm).
    rewrite !count_app, !count_singleton, Ea, Eu.
    destruct (in_flight sys) as [|c l] eqn:Efl; [by apply elem_of_nil in Hin|].
    simpl in Hbal. lia.
Qed.

Lemma answers_follow_reachable env evs : answers_follow (run env (mounted env) evs).
Proof.
  apply (reachable_ind env
           (fun sys => (consistent sys /\ balanced sys) /\ answers_follow sys)).
  - split; [split; [apply consistent_mounted|apply balanced_mounted]|].
    intros j. simpl. by rewrite take_nil.
  - intros sys ev [[Hc Hb] Ha].
    auto using consistent_react, balanced_react, answers_follow_react.
Qed.

Lemma log_begins_with_user env evs m :
  head (messages (component (run env (mounted env) evs))) = Some m -> role m = user.
Proof.
  intros Hm. pose proof (answers_follow_reachable env evs 1%nat) as H.
  destruct (messages (component (run env (mounted env) evs))) as [|m' l]; [done|].
  injection Hm as ->.
  simpl in H. rewrite take_0 in H. unfold count in H. simpl in H.
  unfold is_assistant, is_user in H. destruct (role m); [done|simpl in H; lia].
Qed.

(** X8. In every reachable state, in every initial part of the log the
    assistant messages are no more than the user messages: each answer
    stands after the prompt it answers, and the log, when not empty,
    begins with a user message. *)
Theorem X8_answers_follow_prompts env evs k :
  let log := messages (component (run env (mounted env) evs)) in
  (count is_assistant (take k log) <= count is_user (take k log))%nat
  /\ (forall m, head log = Some m -> role m = user).
Proof.
  intros log. split; [apply (answers_follow_reachable env evs)|].
  apply log_begins_with_user.
Qed.

(** ** With the button alone *)

Lemma happen_event env sys h :
  happen env sys h = match event_of sys h with
                     | Some ev => react env sys ev
                     | None => sys
                     end.
Proof.
  destruct h as [[v|pressed fault|fault]|ac x|x]; simpl; try done.
  - by destruct (bool_decide (pressed = lit "Enter")).
  - by destruct (loading (component sys)).
Qed.

Lemma one_at_a_time_happen env sys h :
  without_enter h = true ->
  one_at_a_time sys /\ aborts (calls (component sys)) = [] ->
  one_at_a_time (happen env sys h) /\ aborts (calls (component (happen env sys h))) = [].
Proof.
  intros Hh [Hone Hab]. rewrite happen_event.
  destruct (event_of sys h) as [ev|] eqn:Eev; [|done].
  assert (Hsub : forall fault, ev = Submitted fault -> loading (component sys) = false).
  { intros fault ->. destruct h as [[v|pressed f|f]|ac x|x]; simpl in *; try done.
    - destruct (bool_decide (pressed = lit "Enter")); done.
    - by destruct (loading (component sys)). }
  unfold one_at_a_time.
  by_cases env sys ev; rewrite Ec, Ef; simpl; try done.
  - specialize (Hsub fault eq_refl).
    destruct Hone as [(E1 & E2 & E3)|(c & E1 & E2 & E3)]; [|congruence].
    split.
    + right. exists (length (controllers (component sys))). by rewrite E1.
    + unfold supersession_calls. rewrite E3. rewrite !aborts_app, Hab. done.
  - split; [|done]. left.
    destruct Hone as [(E1 & E2 & E3)|(c & E1 & E2 & E3)].
    + rewrite E1 in Hin. by apply elem_of_nil in Hin.
    + rewrite E1 in Hin |- *. apply list_elem_of_singleton in Hin as ->.
      by rewrite filter_cons_False, filter_nil by tauto.
Qed.

(** X9. As long as the Enter key is not used (the user types, clicks
    Send, and requests settle), at most one request is in flight, the
    busy flag is set exactly while it is, the slot holds exactly its
    controller, and [abort()] is never called: the disabled button keeps
    submissions from overlapping. *)
Theorem X9_button_alone_never_overlaps env hs :
  Forall (fun h => without_enter h = true) hs ->
  let sys := session env (mounted env) hs in
  ((in_flight sys = []
    /\ loading (component sys) = false
    /\ abortControllerRef (component sys) = None)
   \/ (exists c, in_flight sys = [c]
                 /\ loading (component sys) = true
                 /\ abortControllerRef (component sys) = Some c))
  /\ aborts (calls (component sys)) = [].
Proof.
  intros Hhs sys. subst sys. unfold session.
  induction hs as [|h hs IH] using rev_ind.
  - split; [by left|done].
  - apply Forall_app in Hhs as [Hhs Hh]. inversion Hh; subst.
    rewrite fold_left_app. simpl. apply one_at_a_time_happen; [done|]. by apply IH.
Qed.

(** ** What is rendered *)



Lemma welcome_empty s : welcome (render s) = true <-> messages s = [].
Proof.
  simpl. rewrite bool_decide_eq_true. by destruct (messages s).
Qed.

(** X11. The welcome note is shown exactly while the log is empty: it
    is there after mounting, every accepted submission removes it, and
    once gone it never comes back. *)
Theorem X11_welcome_until_first_submission env :
  welcome (render (component (mounted env))) = true
  /\ (forall sys fault, trim (input (component sys)) <> [] ->
        welcome (render (component (react env sys (Submitted fault)))) = false)
  /\ (forall sys evs, welcome (render (component sys)) = false ->
        welcome (render (component (run env sys evs))) = false)
  /\ (forall evs,
        let sys := run env (mounted env) evs in
        welcome (render (component sys)) = true
        <-> user_prompts (messages (component sys)) = []).
Proof.
  split; [reflexivity|]. split; [|split].
  - intros sys fault Hin. rewrite (react_submitted _ _ _ Hin).
    apply not_true_is_false. rewrite welcome_empty. simpl.
    by destruct (messages (component sys)).
  - intros sys evs H. apply not_true_is_false. rewrite welcome_empty.
    apply not_true_iff_false in H. rewrite welcome_empty in H.
    destruct (messages_run env evs sys) as [suffix ->].
    by destruct (messages (component sys)).
  - intros evs sys. rewrite welcome_empty. split; [by intros ->|].
    intros Hu. destruct (messages (component sys)) as [|m l] eqn:El; [done|].
    assert (Hr : role m = user)
      by (apply (log_begins_with_user env evs); fold sys; by rewrite El).
    destruct (user_messages_clean_reachable env evs m) as (p & -> & _); [|done|done].
    fold sys. rewrite El. apply list_elem_of_here.
Qed.




(** ** The reply when [output[0]] gives nothing *)

Lemma member_of_non_object k x : (forall props, x <> JObj props) -> member k x = None.
Proof. intros H. destruct x; try done. by destruct (H props). Qed.

(** X13. When [data.output[0]] is not an object (there is no [output],
    it is empty, or its first element is a string, a number, an array,
    [null]), nothing is extracted: the reply is the body itself when it
    is a string, and else the first 2000 code units of its JSON text. *)
Theorem X13_no_object_no_extraction data s :
  (forall props, opt_index0 (opt_member (lit "output") (Some data)) <> Some (JObj props)) ->
  extract_reply data s
  = (Normal (match data with
             | JStr str => Some (JStr str)
             | _ => Some (JStr (take 2000 (stringify data)))
             end), s).
Proof.
  intros H. rewrite extract_reply_precedence. unfold precedence_reply.
  assert (E : forall k, opt_member k (opt_index0 (opt_member (lit "output") (Some data))) = None).
  { intros k. destruct (opt_index0 (opt_member (lit "output") (Some data))) as [x|]; [|done].
    rewrite opt_member_some. apply member_of_non_object.
    intros props ->. by apply (H props). }
  by rewrite !E.
Qed.

(** X14. A reply made by the last branch is a string of at most 2000
    code units, a prefix of the body's JSON text, and the whole of it
    when that text has at most 2000 code units. *)
Theorem X14_serialized_reply_is_bounded data s :
  truthy (opt_member (lit "generated_text")
            (opt_index0 (opt_member (lit "output") (Some data)))) = false ->
  truthy (opt_member (lit "text")
            (opt_index0 (opt_member (lit "output") (Some data)))) = false ->
  is_string data = false ->
  exists r,
    extract_reply data s = (Normal (Some (JStr r)), s)
    /\ (length r <= 2000)%nat
    /\ r `prefix_of` stringify data
    /\ ((length (stringify data) <= 2000)%nat -> r = stringify data).
Proof.
  intros Hg Ht Hs. exists (take 2000 (stringify data)).
  rewrite extract_reply_precedence. unfold precedence_reply. rewrite Hg, Ht.
  split; [by destruct data|]. split; [|split].
  - rewrite length_take. lia.
  - apply prefix_take.
  - intros Hlen. by apply take_ge.
Qed.

(** ** Every call the component makes *)

Lemma known_calls_react env sys ev :
  Forall (known_call (BACKEND env)) (calls (component sys)) ->
  Forall (known_call (BACKEND env)) (calls (component (react env sys ev))).
Proof.
  intros IH. by_cases env sys ev; rewrite Ec; simpl; try done.
  apply Forall_app. split; [done|]. apply Forall_app. split.
  - unfold supersession_calls. destruct (abortControllerRef (component sys)).
    + apply Forall_cons; split; [|constructor]. left. by eexists.
    + constructor.
  - apply Forall_cons; split; [|constructor]. right; right.
    eexists _, _. split; [reflexivity|]. by apply trim_gives_clean.
Qed.

(** X15. The base URL is the configured one when it is set and not
    empty, and else the built-in address; it is never empty.  In every
    reachable state each call made so far is an [abort()], the one
    [fetch] of [BACKEND/ping] without options, or a [POST] to
    [BACKEND/chat] whose prompt is not empty and carries no white space
    at its ends: the component talks to no other address. *)
Theorem X15_every_call_goes_to_the_backend env :
  BACKEND env <> []
  /\ (env = None \/ env = Some [] -> BACKEND env = lit "https://arc-ai.onrender.com")
  /\ (forall u, env = Some u -> u <> [] -> BACKEND env = u)
  /\ (forall evs c, c ∈ calls (component (run env (mounted env) evs)) ->
        (exists t, c = Call_abort t)
        \/ c = Call_fetch (BACKEND env ++ lit "/ping") None
        \/ (exists p ac, c = chat_request (BACKEND env) p ac /\ clean_prompt p)).
Proof.
  split; [|split; [|split]].
  - unfold BACKEND. by destruct env as [[|c u]|].
  - by intros [-> | ->].
  - intros u -> Hu. by destruct u.
  - intros evs c Hc.
    assert (H : Forall (known_call (BACKEND env))
                       (calls (component (run env (mounted env) evs)))).
    { apply (reachable_ind env
               (fun sys => Forall (known_call (BACKEND env)) (calls (component sys)))).
      - apply Forall_cons; split; [|constructor]. right; by left.
      - intros sys ev. apply known_calls_react. }
    rewrite Forall_forall in H. apply (H c Hc).
Qed.

(** ** What a settlement does and does not do *)


(** X17. A settlement, whatever its outcome, leaves the input field,
    the status, the controllers and the calls as they were: what the
    user is typing is not lost, no signal is aborted, and no request is
    issued again after a failure. *)
Theorem X17_settlement_frame env sys ac x :
  ac ∈ in_flight sys ->
  let sys' := react env sys (Settled ac x) in
  input (component sys') = input (component sys)
  /\ status (component sys') = status (component sys)
  /\ controllers (component sys') = controllers (component sys)
  /\ calls (component sys') = calls (component sys)
  /\ probe_pending sys' = probe_pending sys
  /\ (forall c, c ∈ in_flight sys' <-> c ∈ in_flight sys /\ c <> ac).
Proof.
  intros Hin sys'. subst sys'. rewrite (react_settled _ _ _ _ Hin).
  cbn [component in_flight probe_pending].
  destruct (resumed_settles x (component sys)) as (m & _ & ->). simpl.
  do 5 (split; [done|]).
  intros c. rewrite list_elem_of_filter. tauto.
Qed.

(** ** Keys and clicks *)


(** X18. While the component is busy the button delivers no click, but
    the Enter key still submits: with a prompt in the field, Enter
    starts a new request, and when a controller is in the slot it is
    aborted first.  Any other key does nothing. *)
Theorem X18_enter_is_not_held_back env sys fault :
  loading (component sys) = true ->
  trim (input (component sys)) <> [] ->
  handle env sys (Click fault) = sys
  /\ in_flight (handle env sys (KeyDown (lit "Enter") fault))
     = in_flight sys ++ [length (controllers (component sys))]
  /\ calls (component (handle env sys (KeyDown (lit "Enter") fault)))
     = calls (component sys)
       ++ match abortControllerRef (component sys) with
          | Some c => [Call_abort c]
          | None => []
          end
       ++ [chat_request (BACKEND env) (trim (input (component sys)))
                        (length (controllers (component sys)))]
  /\ (forall pressed, pressed <> lit "Enter" ->
        handle env sys (KeyDown pressed fault) = sys).
Proof.
  intros Hl Hin. split; [|split; [|split]].
  - simpl. by rewrite Hl.
  - cbn [handle]. rewrite bool_decide_eq_true_2 by done.
    by rewrite (react_submitted _ _ _ Hin).
  - cbn [handle]. rewrite bool_decide_eq_true_2 by done.
    by rewrite (react_submitted _ _ _ Hin).
  - intros pressed Hp. cbn [handle]. by rewrite bool_decide_eq_false_2.
Qed.


(** ** The further properties at sample inputs *)

(** X3 on a request aborted before and after the probe is fulfilled. *)
Lemma X3_probe_and_cancellation_commute :
  (forall y, Settled 0%nat (Throw AbortError) <> ProbeSettled y)
  /\ react None
       (react None waiting (ProbeSettled (Normal (respond 200 (lit "OK") (Normal JNull)))))
       (Settled 0%nat (Throw AbortError))
     = react None (react None waiting (Settled 0%nat (Throw AbortError)))
         (ProbeSettled (Normal (respond 200 (lit "OK") (Normal JNull)))).
Proof.
  assert (H : forall y, Settled 0%nat (Throw AbortError) <> ProbeSettled y) by discriminate.
  split; [exact H|].
  exact (X3_probe_commutes_with_chat None waiting
           (Normal (respond 200 (lit "OK") (Normal JNull)))
           (Settled 0%nat (Throw AbortError)) H).
Defined.

(** X4 on the input ["  hello there "]. *)
Lemma X4_hello_there_is_logged_trimmed :
  says user (lit "hello there")
    ∈ messages (component (run None (mounted None)
                             [Typed (lit "  hello there "); Submitted None]))
  /\ role (says user (lit "hello there")) = user
  /\ exists p, says user (lit "hello there") = says user p
               /\ clean_prompt p /\ trim p = p.
Proof.
  assert (H : says user (lit "hello there")
                ∈ messages (component (run None (mounted None)
                                         [Typed (lit "  hello there "); Submitted None])))
    by (vm_compute; constructor).
  split; [exact H|]. split; [reflexivity|].
  exact (X4_user_messages_are_trimmed None
           [Typed (lit "  hello there "); Submitted None]
           (says user (lit "hello there")) H eq_refl).
Defined.

(** X6 after two overlapping submissions. *)
Lemma X6_slot_after_overlap :
  abortControllerRef (component (run None (mounted None) overlap)) = Some 1%nat
  /\ 1%nat ∈ in_flight (run None (mounted None) overlap)
  /\ 2%nat = length (controllers (component (run None (mounted None) overlap)))
  /\ controllers (component (run None (mounted None) overlap)) !! 1%nat = Some false.
Proof.
  split; [reflexivity|].
  exact (X6_slot_holds_latest_live_request None overlap 1%nat eq_refl).
Defined.

(** X9 on a session led with the button. *)
Lemma X9_button_session_never_overlaps :
  Forall (fun h => without_enter h = true) button_session
  /\ ((in_flight (session None (mounted None) button_session) = []
       /\ loading (component (session None (mounted None) button_session)) = false
       /\ abortControllerRef (component (session None (mounted None) button_session)) = None)
      \/ (exists c,
            in_flight (session None (mounted None) button_session) = [c]
            /\ loading (component (session None (mounted None) button_session)) = true
            /\ abortControllerRef (component (session None (mounted None) button_session))
               = Some c))
  /\ aborts (calls (component (session None (mounted None) button_session))) = [].
Proof.
  assert (H : Forall (fun h => without_enter h = true) button_session)
    by (repeat constructor).
  split; [exact H|].
  exact (X9_button_alone_never_overlaps None button_session H).
Defined.


(** X13 on a body whose [output] is a string. *)
Lemma X13_output_is_text_is_serialized :
  (forall props,
     opt_index0 (opt_member (lit "output") (Some output_is_text)) <> Some (JObj props))
  /\ extract_reply output_is_text initial
     = (Normal (Some (JStr (take 2000 (stringify output_is_text)))), initial).
Proof.
  assert (H : forall props,
            opt_index0 (opt_member (lit "output") (Some output_is_text))
            <> Some (JObj props)) by discriminate.
  split; [exact H|].
  exact (X13_no_object_no_extraction output_is_text initial H).
Defined.

(** X14 on the empty object. *)
Lemma X14_empty_object_is_short :
  is_string (JObj []) = false
  /\ exists r,
       extract_reply (JObj []) initial = (Normal (Some (JStr r)), initial)
       /\ (length r <= 2000)%nat
       /\ r `prefix_of` stringify (JObj [])
       /\ ((length (stringify (JObj [])) <= 2000)%nat -> r = stringify (JObj [])).
Proof.
  split; [reflexivity|].
  exact (X14_serialized_reply_is_bounded (JObj []) initial eq_refl eq_refl eq_refl).
Defined.

(** X17 on a request that fails in the network. *)
Lemma X17_network_failure_frame :
  0%nat ∈ in_flight waiting
  /\ input (component (react None waiting (Settled 0%nat (Throw TypeError))))
     = input (component waiting)
  /\ calls (component (react None waiting (Settled 0%nat (Throw TypeError))))
     = calls (component waiting).
Proof.
  split; [exact waiting_in_flight|].
  pose proof (X17_settlement_frame None waiting 0%nat (Throw TypeError) waiting_in_flight)
    as (Hi & _ & _ & Hc & _).
  split; [exact Hi|exact Hc].
Defined.

(** X18 on a second prompt typed while the first request is in flight. *)
Lemma X18_enter_while_busy :
  loading (component busy_with_prompt) = true
  /\ trim (input (component busy_with_prompt)) <> []
  /\ handle None busy_with_prompt (Click None) = busy_with_prompt
  /\ in_flight (handle None busy_with_prompt (KeyDown (lit "Enter") None)) = [0; 1]%nat.
Proof.
  assert (H : trim (input (component busy_with_prompt)) <> []) by discriminate.
  split; [reflexivity|]. split; [exact H|].
  pose proof (X18_enter_is_not_held_back None busy_with_prompt None eq_refl H)
    as (Hc & Hf & _).
  split; [exact Hc|exact Hf].
Defined.

